(** * Misleading Chart QA viewer: catalog, resolver and navigator

    A shallow embedding of [app.py].  The host is taken to be POSIX
    ([os.sep = "/"], [posixpath.join], [pathlib.PurePosixPath]); Python
    [str] values are byte strings compared code unit by code unit (on UTF-8
    this is the order of code points, the one of [str]), Python [int] is [Z],
    a raised exception is the [Raise] branch of [result]. *)

From Stdlib Require Import ZArith Ascii DecimalString.
From stdpp Require Import base decidable option list sorting strings gmap.

Local Open Scope Z_scope.

(** ** Exceptions *)

Record Exception := mkException { exc_type : string; exc_str : string }.

Inductive result (A : Type) : Type :=
| Ok (a : A)
| Raise (e : Exception).
Arguments Ok {A} a.
Arguments Raise {A} e.

Global Instance result_ret : MRet result := λ A a, Ok a.
Global Instance result_bind : MBind result := λ A B k r,
  match r with
  | Ok a => k a
  | Raise e => Raise e
  end.

Definition returns {A : Type} (r : result A) : Prop := ∃ a, r = Ok a.

Global Instance Exception_eq_dec : EqDecision Exception.
Proof. solve_decision. Defined.

Global Instance result_eq_dec {A : Type} `{EqDecision A} : EqDecision (result A).
Proof. solve_decision. Defined.

(** ** Python [str] *)

(** [str.lower] on one code unit: only [A]..[Z] change; no character outside
    ASCII lowers to one of the letters of an image extension. *)
Definition lower_char (c : ascii) : ascii :=
  let n := N_of_ascii c in
  if ((65 <=? n) && (n <=? 90))%N then ascii_of_N (n + 32) else c.

Fixpoint lower (s : string) : string :=
  match s with
  | EmptyString => EmptyString
  | String c s' => String (lower_char c) (lower s')
  end.

(** [s.rfind(c)]: the highest index of [c] in [s], or [-1]. *)
Fixpoint rfind (c : ascii) (s : string) : Z :=
  match s with
  | EmptyString => -1
  | String a s' =>
      let r := rfind c s' in
      if 0 <=? r then r + 1 else if Ascii.eqb a c then 0 else -1
  end.

(** [s[:n]] and [s[n:]] for [0 <= n]. *)
Fixpoint str_take (n : nat) (s : string) : string :=
  match n, s with
  | S n', String c s' => String c (str_take n' s')
  | _, _ => EmptyString
  end.

Fixpoint str_drop (n : nat) (s : string) : string :=
  match n, s with
  | S n', String _ s' => str_drop n' s'
  | _, _ => s
  end.

Definition startswith (s pre : string) : bool := String.prefix pre s.

Fixpoint endswith_char (s : string) (c : ascii) : bool :=
  match s with
  | EmptyString => false
  | String a EmptyString => Ascii.eqb a c
  | String _ s' => endswith_char s' c
  end.

(** [str(n)] and [f"{n}"] for an [int]. *)
Definition str_int (n : Z) : string := NilZero.string_of_int (Z.to_int n).

(** [sorted(l)] for a list of [str]: ascending for [<=] on [str], which is
    lexicographic on code units ([String.le]). *)
Definition sorted (l : list string) : list string := merge_sort String.le l.

(** ** pathlib, POSIX flavour *)

(** A relative path is the list of its parts. *)
Definition PurePath := list string.

Definition name (p : PurePath) : string := default EmptyString (last p).

(** [PurePath.suffix]: the last dot of the name opens the suffix unless it
    is the first or the last character. *)
Definition suffix (p : PurePath) : string :=
  let nm := name p in
  let i := rfind "." nm in
  if (0 <? i) && (i <? Z.of_nat (String.length nm) - 1)
  then str_drop (Z.to_nat i) nm
  else EmptyString.

Definition ValueError (msg : string) : Exception := mkException "ValueError" msg.

(** [p.with_suffix('')]. *)
Definition with_suffix_empty (p : PurePath) : result PurePath :=
  let nm := name p in
  if bool_decide (nm = EmptyString) then Raise (ValueError "path has an empty name")
  else
    let old_suffix := suffix p in
    let nm' :=
      if bool_decide (old_suffix = EmptyString) then nm
      else str_take (String.length nm - String.length old_suffix) nm in
    Ok (removelast p ++ [nm']).

(** [str(p)] for a relative path. *)
Definition str_path (p : PurePath) : string :=
  match p with
  | [] => "."
  | _ => String.concat "/" p
  end.

(** [os.path.join(a, b)] of [posixpath]. *)
Definition os_path_join (a b : string) : string :=
  if startswith b "/" then b
  else if bool_decide (a = EmptyString) || endswith_char a "/" then a +:+ b
  else a +:+ "/" +:+ b.

(** ** Python lists *)

Definition len {A : Type} (l : list A) : Z := Z.of_nat (length l).

Definition IndexError : Exception := mkException "IndexError" "list index out of range".

(** [l[i]]: a negative index counts from the end, an index out of range
    raises [IndexError]. *)
Definition list_getitem {A : Type} (l : list A) (i : Z) : result A :=
  let j := if i <? 0 then i + len l else i in
  if (0 <=? j) && (j <? len l)
  then match l !! Z.to_nat j with
       | Some x => Ok x
       | None => Raise IndexError
       end
  else Raise IndexError.

(** [l.index(val)]: the first position of [val], [ValueError] if there is none. *)
Fixpoint list_index (val : string) (l : list string) : result Z :=
  match l with
  | [] => Raise (ValueError (val +:+ " is not in list"))
  | x :: l' =>
      if bool_decide (x = val) then Ok 0
      else i ← list_index val l'; Ok (i + 1)
  end.

(** [try: body except Exception as e: handler(e)]. *)
Definition try_except {A : Type} (body : result A) (handler : Exception → result A)
  : result A :=
  match body with
  | Ok a => Ok a
  | Raise e => handler e
  end.

(** ** Contents shown by the viewer *)

Inductive cell :=
| CellStr (s : string)
| CellInt (n : Z)
| CellFloat (bits : Z)
| CellNaN.

(** A [pandas.DataFrame]: its columns in order, each a header and its cells. *)
Definition DataFrame := list (string * list cell).

Definition n_rows (df : DataFrame) : nat :=
  match df with
  | [] => 0%nat
  | (_, col) :: _ => length col
  end.

(** What [json.load] returns; a [dict] is a finite map on its keys. *)
#[warnings="-register-all"] Inductive json :=
| JNull
| JBool (b : bool)
| JInt (n : Z)
| JFloat (bits : Z)
| JString (s : string)
| JArray (l : list json)
| JObject (m : gmap string json).

(** A decoded [PIL.Image]. *)
Record Image := mkImage { img_width : N; img_height : N; img_data : list N }.

(** ** The filesystem, as the program observes it *)

(** One path yielded by [figures_path.rglob('*')]: its parts relative to
    [figures_path], and the outcome of [is_file()] on it: its answer, or the
    [OSError] it lets through (any other than ENOENT, ENOTDIR, EBADF and
    ELOOP, such as the [PermissionError] of a directory that cannot be
    searched). *)
Record dirent := mkDirent { d_rel : PurePath; d_is_file : result bool }.

Record filesystem := mkFilesystem {
  rglob_figures : list dirent;
  path_exists : string → bool;
  read_csv : string → result DataFrame;
  json_load : string → result json;
  Image_open : string → result Image
}.

(** ** The program *)

Section App.
Context (BASE_DIR : string) (fs : filesystem).

Definition FIGURES_DIR : string := os_path_join BASE_DIR "figures".
Definition DATA_DIR : string := os_path_join BASE_DIR "data".
Definition QA_DIR : string := os_path_join BASE_DIR "qa".
Definition SCREENSHOTS_DIR : string :=
  os_path_join (os_path_join BASE_DIR "screenshots") "non-misleading".

Definition image_suffixes : list string := [".jpg"; ".jpeg"; ".png"].

(** The loop of [get_all_samples], [samples] being the list built so far. *)
Fixpoint scan_figures (entries : list dirent) (samples : list string)
  : result (list string) :=
  match entries with
  | [] => Ok samples
  | file_path :: rest =>
      is_file ← d_is_file file_path;
      if is_file
         && bool_decide (lower (suffix (d_rel file_path)) ∈ image_suffixes)
      then
        let rel_path := d_rel file_path in
        stripped ← with_suffix_empty rel_path;
        let sample_id := str_path stripped in
        scan_figures rest (samples ++ [sample_id])
      else scan_figures rest samples
  end.

Definition get_all_samples : result (list string) :=
  samples ← scan_figures (rglob_figures fs) [];
  Ok (sorted samples).

(** [for p in candidates: if os.path.exists(p): found = p; break]. *)
Fixpoint first_existing (candidates : list string) : option string :=
  match candidates with
  | [] => None
  | p :: rest => if path_exists fs p then Some p else first_existing rest
  end.

Definition get_sample_data (sample_id : string)
  : result (option string * option string * DataFrame * json) :=
  (* 1. Misleading Image *)
  let misleading_path :=
    first_existing
      ((λ ext, os_path_join FIGURES_DIR (sample_id +:+ ext))
         <$> [".jpeg"; ".jpg"; ".png"]) in
  (* 2. Original Image (Screenshot) *)
  let possible_paths :=
    [ os_path_join SCREENSHOTS_DIR (sample_id +:+ ".jpg");
      os_path_join SCREENSHOTS_DIR (sample_id +:+ ".jpeg");
      os_path_join SCREENSHOTS_DIR (sample_id +:+ ".png");
      os_path_join (os_path_join SCREENSHOTS_DIR "code_original") (sample_id +:+ ".jpg");
      os_path_join (os_path_join SCREENSHOTS_DIR "code_original") (sample_id +:+ ".jpeg");
      os_path_join (os_path_join SCREENSHOTS_DIR "code_original") (sample_id +:+ ".png") ] in
  let original_path := first_existing possible_paths in
  (* 3. CSV Data *)
  let csv_path := os_path_join DATA_DIR (sample_id +:+ ".csv") in
  df ←
    (if path_exists fs csv_path
     then try_except (read_csv fs csv_path)
            (λ e, Ok [("Error", [CellStr ("Could not read CSV: " +:+ exc_str e)])])
     else Ok [("Info", [CellStr "No CSV file found"])]);
  (* 4. JSON QA *)
  let json_path := os_path_join QA_DIR (sample_id +:+ ".json") in
  json_data ←
    (if path_exists fs json_path
     then try_except (json_load fs json_path)
            (λ e, Ok (JObject {[ "Error" := JString ("Could not read JSON: " +:+ exc_str e) ]}))
     else Ok (JObject {[ "Info" := JString "No JSON file found" ]}));
  Ok (misleading_path, original_path, df, json_data).

(** The seven outputs of a handler, in the order of the [outputs] lists. *)
Record outputs := mkOutputs {
  misleading_image : option Image;
  original_image : option Image;
  data_table : DataFrame;
  json_output : json;
  sample_dropdown : option string;
  current_index : Z;
  count_display : string
}.

(** [Image.open(path) if path else None]: [None] and the empty string are
    falsy. *)
Definition open_if (path : option string) : result (option Image) :=
  match path with
  | Some p =>
      if bool_decide (p = EmptyString) then Ok None
      else img ← Image_open fs p; Ok (Some img)
  | None => Ok None
  end.

Section Session.
Context (samples : list string).

Definition load_sample (index : Z) : result outputs :=
  if bool_decide (samples = []) then
    Ok (mkOutputs None None [] (JObject ∅) None 0 "0/0")
  else
    (* Ensure index is within bounds *)
    let idx := Z.max 0 (Z.min index (len samples - 1)) in
    sample_id ← list_getitem samples idx;
    '(misleading_path, original_path, df, json_data) ← get_sample_data sample_id;
    misleading_img ← open_if misleading_path;
    original_img ← open_if original_path;
    let count_str := str_int (idx + 1) +:+ " / " +:+ str_int (len samples) in
    Ok (mkOutputs misleading_img original_img df json_data
          (Some sample_id) idx count_str).

Definition on_prev (idx : Z) : result outputs := load_sample (idx - 1).

Definition on_next (idx : Z) : result outputs := load_sample (idx + 1).

Definition on_select (val : string) : result outputs :=
  if bool_decide (val ∈ samples) then
    i ← list_index val samples; load_sample i
  else load_sample 0.

(** The four listeners: the buttons and the page load read the session's
    [current_index], the dropdown sends its value. *)
Inductive event :=
| Load
| Previous
| Next
| Select (val : string).

Definition handle (ev : event) (current : Z) : result outputs :=
  match ev with
  | Load => load_sample current
  | Previous => on_prev current
  | Next => on_next current
  | Select val => on_select val
  end.
End Session.
End App.

(** ** Vocabulary of the specification *)

(** "files whose extension (case-insensitive) is one of jpg, jpeg, png". *)
Definition is_image_file (e : dirent) : Prop :=
  d_is_file e = Ok true ∧ lower (suffix (d_rel e)) ∈ [".jpg"; ".jpeg"; ".png"].

Global Instance is_image_file_dec e : Decision (is_image_file e).
Proof. unfold is_image_file. apply _. Defined.

(** "its path relative to rootDir with the extension stripped, using
    forward-slash-style separators": putting the extension back gives the
    parts joined by slashes. *)
Definition relative_path_without_extension (e : dirent) (id : string) : Prop :=
  id +:+ suffix (d_rel e) = String.concat "/" (d_rel e).

Global Instance relative_path_without_extension_dec e id :
  Decision (relative_path_without_extension e id).
Proof. unfold relative_path_without_extension. apply _. Defined.

(** The image files on disk whose identifier is [id]. *)
Definition image_files_named (fs : filesystem) (id : string) : list dirent :=
  filter (λ e, is_image_file e ∧ relative_path_without_extension e id)
    (rglob_figures fs).

(** How many times [id] occurs in a catalog. *)
Definition occurrences (id : string) (catalog : list string) : nat :=
  length (filter (λ x, x = id) catalog).

(** "clamp(i, 0, N-1)". *)
Definition clamp (i lo hi : Z) : Z :=
  if i <? lo then lo else if hi <? i then hi else i.

(** The condition and the identifier of one turn of the loop of
    [get_all_samples]. *)
Definition retained (e : dirent) : bool :=
  match d_is_file e with
  | Ok is_file => is_file && bool_decide (lower (suffix (d_rel e)) ∈ image_suffixes)
  | Raise _ => false
  end.

Definition sample_id_of (e : dirent) : string :=
  match with_suffix_empty (d_rel e) with
  | Ok p => str_path p
  | Raise _ => EmptyString
  end.

(** "first existing path wins; if none exist, absent": [found] is the first
    of [candidates] that exists. *)
Definition first_existing_wins (fs : filesystem) (candidates : list string)
    (found : option string) : Prop :=
  match found with
  | Some p =>
      ∃ i : nat, candidates !! i = Some p ∧ path_exists fs p = true
        ∧ ∀ (j : nat) q, (j < i)%nat → candidates !! j = Some q → path_exists fs q = false
  | None => ∀ q, q ∈ candidates → path_exists fs q = false
  end.

(** Both images located for [sample_id] open. *)
Definition decodable (BASE_DIR : string) (fs : filesystem) (sample_id : string) : Prop :=
  ∃ misleading_path original_path df json_data,
    get_sample_data BASE_DIR fs sample_id
      = Ok (misleading_path, original_path, df, json_data)
    ∧ returns (open_if fs misleading_path) ∧ returns (open_if fs original_path).

(** The images of the catalog entry at position [i] open. *)
Definition decodable_at (BASE_DIR : string) (fs : filesystem) (samples : list string)
    (i : Z) : Prop :=
  ∃ sample_id, samples !! Z.to_nat i = Some sample_id ∧ decodable BASE_DIR fs sample_id.

(** The position a navigation event asks for, before clamping: one step
    back, one step forth, the position given, or the position of the selected
    identifier (position 0 for an unknown one). *)
Definition target (samples : list string) (ev : event) (current : Z) : Z :=
  match ev with
  | Load => current
  | Previous => current - 1
  | Next => current + 1
  | Select val =>
      match list_index val samples with
      | Ok i => i
      | Raise _ => 0
      end
  end.

(** ** Example filesystems *)

Definition FileNotFoundError (path : string) : Exception :=
  mkException "FileNotFoundError" ("No such file or directory: " +:+ path).

Definition no_file {A : Type} (path : string) : result A :=
  Raise (FileNotFoundError path).

(** One chart saved under two extensions. *)
Definition fs_two_extensions : filesystem :=
  mkFilesystem
    [mkDirent ["a.jpg"] (Ok true); mkDirent ["a.png"] (Ok true)]
    (λ p, bool_decide (p ∈ ["/app/figures/a.jpg"; "/app/figures/a.png"]))
    no_file no_file
    (λ _, Ok (mkImage 1 1 [0%N])).

(** A small dataset: three charts, screenshots for two of them, one table
    that parses and one that does not, one annotation that parses and one
    that does not. *)
Definition demo_files : list string :=
  [ "/app/figures/a/b.png"; "/app/figures/a/c.jpg"; "/app/figures/z.jpeg";
    "/app/screenshots/non-misleading/a/b.png";
    "/app/screenshots/non-misleading/code_original/a/c.jpeg";
    "/app/data/a/b.csv"; "/app/data/a/c.csv";
    "/app/qa/a/b.json"; "/app/qa/z.json" ].

Definition demo_table : DataFrame :=
  [("year", [CellInt 2020; CellInt 2021]); ("share", [CellStr "12%"; CellStr "14%"])].

Definition demo_qa : json :=
  JObject {[ "question" := JString "Which year is higher?" ]}.

Definition ParserError : Exception :=
  mkException "ParserError" "Error tokenizing data. C error: Expected 2 fields in line 3, saw 5".

Definition JSONDecodeError : Exception :=
  mkException "JSONDecodeError" "Expecting value: line 1 column 1 (char 0)".

Definition UnidentifiedImageError (path : string) : Exception :=
  mkException "UnidentifiedImageError" ("cannot identify image file " +:+ path).

Definition fs_demo : filesystem :=
  mkFilesystem
    [ mkDirent ["a"] (Ok false); mkDirent ["z.jpeg"] (Ok true);
      mkDirent ["a"; "c.jpg"] (Ok true); mkDirent ["notes.txt"] (Ok true);
      mkDirent ["a"; "b.png"] (Ok true) ]
    (λ p, bool_decide (p ∈ demo_files))
    (λ p, if bool_decide (p = "/app/data/a/b.csv") then Ok demo_table
          else if bool_decide (p = "/app/data/a/c.csv") then Raise ParserError
          else no_file p)
    (λ p, if bool_decide (p = "/app/qa/a/b.json") then Ok demo_qa
          else if bool_decide (p = "/app/qa/z.json") then Raise JSONDecodeError
          else no_file p)
    (λ p, if bool_decide (p ∈ demo_files) then Ok (mkImage 1 1 [255%N]) else no_file p).

Definition demo_catalog : list string := ["a/b"; "a/c"; "z"].

(** The same dataset with a truncated [z.jpeg]. *)
Definition fs_corrupt : filesystem :=
  mkFilesystem (rglob_figures fs_demo) (path_exists fs_demo)
    (read_csv fs_demo) (json_load fs_demo)
    (λ p, if bool_decide (p = "/app/figures/z.jpeg") then Raise (UnidentifiedImageError p)
          else Image_open fs_demo p).

(** ** The session and the paths it probes *)

(** The initial value of the dropdown: [samples[0] if samples else None]. *)
Definition initial_dropdown_value (samples : list string) : result (option string) :=
  if bool_decide (samples = []) then Ok None
  else first_sample ← list_getitem samples 0; Ok (Some first_sample).

(** One event of a session: the listener reads the state [current_index]
    where it takes it as input, and its sixth output is stored back. *)
Definition step (BASE_DIR : string) (fs : filesystem) (samples : list string)
    (current : Z) (ev : event) : result Z :=
  out ← handle BASE_DIR fs samples ev current; Ok (current_index out).

(** A session in which every listener returns; the state starts at
    [gr.State(0)]. *)
Fixpoint run (BASE_DIR : string) (fs : filesystem) (samples : list string)
    (evs : list event) (current : Z) : result Z :=
  match evs with
  | [] => Ok current
  | ev :: rest =>
      current' ← step BASE_DIR fs samples current ev;
      run BASE_DIR fs samples rest current'
  end.

(** The paths [get_sample_data] probes for the two images. *)
Definition primary_candidates (BASE_DIR sample_id : string) : list string :=
  [ os_path_join (FIGURES_DIR BASE_DIR) (sample_id +:+ ".jpeg");
    os_path_join (FIGURES_DIR BASE_DIR) (sample_id +:+ ".jpg");
    os_path_join (FIGURES_DIR BASE_DIR) (sample_id +:+ ".png") ].

Definition companion_candidates (BASE_DIR sample_id : string) : list string :=
  [ os_path_join (SCREENSHOTS_DIR BASE_DIR) (sample_id +:+ ".jpg");
    os_path_join (SCREENSHOTS_DIR BASE_DIR) (sample_id +:+ ".jpeg");
    os_path_join (SCREENSHOTS_DIR BASE_DIR) (sample_id +:+ ".png");
    os_path_join (os_path_join (SCREENSHOTS_DIR BASE_DIR) "code_original")
      (sample_id +:+ ".jpg");
    os_path_join (os_path_join (SCREENSHOTS_DIR BASE_DIR) "code_original")
      (sample_id +:+ ".jpeg");
    os_path_join (os_path_join (SCREENSHOTS_DIR BASE_DIR) "code_original")
      (sample_id +:+ ".png") ].

(** A POSIX file name: not empty, no slash in it. *)
Fixpoint has_char (c : ascii) (s : string) : bool :=
  match s with
  | EmptyString => false
  | String a s' => Ascii.eqb a c || has_char c s'
  end.

Definition valid_name (s : string) : bool :=
  negb (bool_decide (s = EmptyString)) && negb (has_char "/" s).

(** Every path yielded by [rglob] is made of file names. *)
Definition well_formed_entries (fs : filesystem) : bool :=
  forallb (λ e, forallb valid_name (d_rel e)) (rglob_figures fs).

(** A dataset with a subdirectory that can be listed but not searched:
    [is_file()] on the file inside it raises. *)
Definition PermissionError (path : string) : Exception :=
  mkException "PermissionError" ("[Errno 13] Permission denied: " +:+ path).

Definition fs_locked : filesystem :=
  mkFilesystem
    [ mkDirent ["open.png"] (Ok true); mkDirent ["locked"] (Ok false);
      mkDirent ["locked"; "x.png"] (Raise (PermissionError "/app/figures/locked/x.png")) ]
    (λ p, bool_decide (p = "/app/figures/open.png"))
    no_file no_file
    (λ _, Ok (mkImage 1 1 [0%N])).

(** Every call of [is_file()] during the scan answers. *)
Definition is_file_answers (fs : filesystem) : Prop :=
  Forall (λ e, returns (d_is_file e)) (rglob_figures fs).

(** The example dataset enumerated in the opposite order. *)
Definition fs_demo_reversed : filesystem :=
  mkFilesystem (reverse (rglob_figures fs_demo)) (path_exists fs_demo)
    (read_csv fs_demo) (json_load fs_demo) (Image_open fs_demo).

(** * Properties *)

(** ** Strings and paths *)

Lemma str_app_cons c a b : String c a +:+ b = String c (a +:+ b).
Proof. reflexivity. Qed.

Lemma str_app_nil_l a : EmptyString +:+ a = a.
Proof. reflexivity. Qed.

Lemma str_app_nil_r a : a +:+ EmptyString = a.
Proof. induction a as [|c a IH]; [done|]. by rewrite str_app_cons, IH. Qed.

Lemma str_app_assoc a b c : (a +:+ b) +:+ c = a +:+ (b +:+ c).
Proof. induction a as [|x a IH]; [done|]. by rewrite !str_app_cons, IH. Qed.

Lemma str_length_app a b : String.length (a +:+ b) = (String.length a + String.length b)%nat.
Proof. induction a as [|c a IH]; [done|]. rewrite str_app_cons. simpl. by rewrite IH. Qed.

Lemma str_app_inv_tail a b s : a +:+ s = b +:+ s → a = b.
Proof.
  revert b. induction a as [|c a IH]; intros [|d b] H.
  - done.
  - apply (f_equal String.length) in H. rewrite !str_length_app in H. simpl in H. lia.
  - apply (f_equal String.length) in H. rewrite !str_length_app in H. simpl in H. lia.
  - rewrite !str_app_cons in H. injection H as -> H. f_equal. by apply IH.
Qed.

Lemma str_take_drop n s : str_take n s +:+ str_drop n s = s.
Proof.
  revert s. induction n as [|n IH]; intros [|c s]; simpl; try done.
  by rewrite str_app_cons, IH.
Qed.

Lemma str_length_drop n s : String.length (str_drop n s) = (String.length s - n)%nat.
Proof. revert s. induction n as [|n IH]; intros [|c s]; simpl; try done. Qed.

Lemma rfind_bound c s : -1 ≤ rfind c s < Z.of_nat (String.length s).
Proof.
  induction s as [|a s IH]; simpl; [lia|].
  destruct (0 <=? rfind c s) eqn:E; [lia|]. destruct (Ascii.eqb a c); lia.
Qed.

(** A non-empty suffix is a proper tail of a non-empty name. *)
Lemma suffix_split p :
  suffix p ≠ EmptyString →
  name p = str_take (String.length (name p) - String.length (suffix p)) (name p) +:+ suffix p.
Proof.
  unfold suffix. set (nm := name p). set (i := rfind "." nm).
  destruct ((0 <? i) && (i <? Z.of_nat (String.length nm) - 1)) eqn:E; [|done].
  intros _. apply andb_prop in E as [E1 E2].
  apply Z.ltb_lt in E1, E2.
  rewrite str_length_drop.
  replace (String.length nm - (String.length nm - Z.to_nat i))%nat with (Z.to_nat i) by lia.
  by rewrite str_take_drop.
Qed.

Lemma concat_snoc_app (l : list string) a b :
  String.concat "/" (l ++ [a +:+ b]) = String.concat "/" (l ++ [a]) +:+ b.
Proof.
  induction l as [|x l IH]; simpl; [done|].
  destruct (l ++ [a +:+ b]) eqn:E1; [by destruct l|].
  destruct (l ++ [a]) eqn:E2; [by destruct l|].
  rewrite <- E1, <- E2 in *. rewrite IH. by rewrite !str_app_assoc.
Qed.

Lemma removelast_last_name (p : PurePath) : p ≠ [] → removelast p ++ [name p] = p.
Proof.
  intros Hp. unfold name. destruct (last p) eqn:E.
  - simpl. apply last_Some in E as [l' ->]. by rewrite removelast_last.
  - apply last_None in E. done.
Qed.

(** ** The catalog *)

Lemma retained_is_image_file e : retained e = true ↔ is_image_file e.
Proof.
  unfold retained, is_image_file, image_suffixes.
  destruct (d_is_file e) as [is_file|ex].
  - rewrite andb_true_iff, bool_decide_eq_true.
    split; intros [H1 H2]; (split; [congruence | done]).
  - split; [done | by intros [? _]].
Qed.

Lemma image_suffix_nonempty e : is_image_file e → suffix (d_rel e) ≠ EmptyString.
Proof.
  intros [_ Hin] Hs. rewrite Hs in Hin. simpl in Hin.
  repeat (apply elem_of_cons in Hin as [Hin|Hin]; [done|]).
  by apply elem_of_nil in Hin.
Qed.

Lemma suffix_nonempty_name p : suffix p ≠ EmptyString → name p ≠ EmptyString ∧ p ≠ [].
Proof.
  intros Hs. split.
  - intros Hn. apply Hs. unfold suffix. by rewrite Hn.
  - intros ->. by apply Hs.
Qed.

(** [with_suffix('')] succeeds on an image file and strips exactly its
    suffix. *)
Lemma with_suffix_empty_image e :
  is_image_file e →
  ∃ p, with_suffix_empty (d_rel e) = Ok p
       ∧ str_path p +:+ suffix (d_rel e) = String.concat "/" (d_rel e).
Proof.
  intros He. pose proof (image_suffix_nonempty e He) as Hs.
  destruct (suffix_nonempty_name _ Hs) as [Hn Hp].
  unfold with_suffix_empty.
  rewrite bool_decide_eq_false_2 by done.
  rewrite bool_decide_eq_false_2 by done.
  eexists. split; [done|].
  set (stem := str_take _ _).
  assert (removelast (d_rel e) ++ [stem] ≠ []) as Hne by (by destruct (removelast (d_rel e))).
  unfold str_path. destruct (removelast (d_rel e) ++ [stem]) eqn:E; [done|].
  rewrite <- E. rewrite <- concat_snoc_app. unfold stem.
  rewrite <- suffix_split by done. by rewrite removelast_last_name.
Qed.

Lemma sample_id_of_image e :
  is_image_file e → relative_path_without_extension e (sample_id_of e).
Proof.
  intros He. destruct (with_suffix_empty_image e He) as (p & Hp & Hid).
  unfold relative_path_without_extension, sample_id_of. by rewrite Hp.
Qed.

Lemma relative_path_without_extension_unique e id1 id2 :
  relative_path_without_extension e id1 →
  relative_path_without_extension e id2 → id1 = id2.
Proof.
  unfold relative_path_without_extension. intros H1 H2.
  apply (str_app_inv_tail _ _ (suffix (d_rel e))). congruence.
Qed.

(** One turn of the loop on an entry whose [is_file()] answers. *)
Lemma scan_figures_cons e rest acc :
  returns (d_is_file e) →
  scan_figures (e :: rest) acc
  = scan_figures rest (acc ++ (sample_id_of <$> filter is_image_file [e])).
Proof.
  intros [is_file Hfile]. cbn [scan_figures]. rewrite Hfile.
  unfold mbind at 1, result_bind at 1. cbv beta iota.
  assert (retained e = is_file
            && bool_decide (lower (suffix (d_rel e)) ∈ image_suffixes)) as <-
    by (unfold retained; by rewrite Hfile).
  destruct (retained e) eqn:E.
  - apply retained_is_image_file in E as He.
    destruct (with_suffix_empty_image e He) as (p & Hp & _).
    rewrite (filter_cons_True is_image_file) by done.
    rewrite filter_nil, fmap_cons. unfold sample_id_of.
    rewrite Hp. done.
  - rewrite (filter_cons_False is_image_file).
    + by rewrite filter_nil, app_nil_r.
    + rewrite <- retained_is_image_file. congruence.
Qed.

(** When every [is_file()] answers the loop returns the identifiers of the
    image files, in the order of the enumeration. *)
Lemma scan_figures_returns entries acc :
  Forall (λ e, returns (d_is_file e)) entries →
  scan_figures entries acc = Ok (acc ++ (sample_id_of <$> filter is_image_file entries)).
Proof.
  intros Hall. revert acc. induction Hall as [|e rest He Hrest IH]; intros acc.
  - simpl. by rewrite app_nil_r.
  - rewrite scan_figures_cons by done. rewrite IH, <- app_assoc.
    do 2 f_equal. rewrite <- fmap_app. f_equal.
    change (e :: rest) with ([e] ++ rest). by rewrite filter_app.
Qed.


Lemma scan_figures_ok entries acc l :
  scan_figures entries acc = Ok l → Forall (λ e, returns (d_is_file e)) entries.
Proof.
  revert acc. induction entries as [|e rest IH]; intros acc H; [constructor|].
  destruct (d_is_file e) as [is_file|ex'] eqn:Hfile.
  - rewrite scan_figures_cons in H by (by eexists).
    constructor; [by eexists | by eapply IH].
  - cbn [scan_figures] in H. rewrite Hfile in H. done.
Qed.

(** A build that returns has met no failing [is_file()] and returns the
    sorted identifiers of the image files. *)
Lemma get_all_samples_eq fs catalog :
  get_all_samples fs = Ok catalog →
  catalog = sorted (sample_id_of <$> filter is_image_file (rglob_figures fs)).
Proof.
  unfold get_all_samples.
  destruct (scan_figures (rglob_figures fs) []) as [l|ex] eqn:E; [|done].
  cbn. intros [= <-]. apply scan_figures_ok in E as Hall.
  rewrite scan_figures_returns in E by done. by injection E as <-.
Qed.

Lemma get_all_samples_returns fs :
  is_file_answers fs →
  get_all_samples fs
  = Ok (sorted (sample_id_of <$> filter is_image_file (rglob_figures fs))).
Proof. intros Hall. unfold get_all_samples. by rewrite scan_figures_returns. Qed.

Lemma elem_of_sorted id l : id ∈ sorted l ↔ id ∈ l.
Proof. unfold sorted. by rewrite merge_sort_Permutation. Qed.

Lemma occurrences_sorted id l : occurrences id (sorted l) = occurrences id l.
Proof. unfold occurrences, sorted. by rewrite merge_sort_Permutation. Qed.

Lemma occurrences_fmap {A} (f : A → string) id (l : list A) :
  occurrences id (f <$> l) = length (filter (λ x, f x = id) l).
Proof.
  unfold occurrences. induction l as [|x l IH]; [done|].
  rewrite fmap_cons. destruct (decide (f x = id)) as [E|E].
  - rewrite (filter_cons_True (λ y, y = id)), (filter_cons_True (λ y, f y = id)) by done.
    simpl. by rewrite IH.
  - by rewrite (filter_cons_False (λ y, y = id)), (filter_cons_False (λ y, f y = id)).
Qed.

Lemma occurrences_cons id x l :
  occurrences id (x :: l) = ((if decide (x = id) then 1 else 0) + occurrences id l)%nat.
Proof.
  unfold occurrences. destruct (decide (x = id)) as [E|E].
  - by rewrite (filter_cons_True (λ y, y = id)).
  - by rewrite (filter_cons_False (λ y, y = id)).
Qed.

Lemma occurrences_pos id l : id ∈ l ↔ (0 < occurrences id l)%nat.
Proof.
  induction l as [|x l IH].
  - split; [by intros ?%elem_of_nil | unfold occurrences; simpl; lia].
  - rewrite elem_of_cons, occurrences_cons, IH.
    destruct (decide (x = id)) as [E|E].
    + split; [lia | by left].
    + split; [intros [?|?]; [done | lia] | intros; right; lia].
Qed.

Lemma NoDup_occurrences (l : list string) :
  NoDup l ↔ ∀ id, (occurrences id l ≤ 1)%nat.
Proof.
  induction l as [|x l IH].
  - split; [intros _ id; unfold occurrences; simpl; lia | constructor].
  - rewrite NoDup_cons, IH. split.
    + intros [Hx Hl] id. rewrite occurrences_cons.
      destruct (decide (x = id)) as [->|E]; [|apply Hl].
      rewrite occurrences_pos in Hx. lia.
    + intros H. split.
      * rewrite occurrences_pos. specialize (H x).
        rewrite occurrences_cons, decide_True in H by done. lia.
      * intros id. specialize (H id). rewrite occurrences_cons in H. lia.
Qed.

(** An entry is an image file with identifier [id] exactly when the loop
    keeps it and computes [id] for it. *)
Lemma image_named_iff e id :
  is_image_file e ∧ relative_path_without_extension e id
  ↔ is_image_file e ∧ sample_id_of e = id.
Proof.
  split; intros [He H]; (split; [done|]).
  - eapply relative_path_without_extension_unique; [|done]. by apply sample_id_of_image.
  - subst id. by apply sample_id_of_image.
Qed.

Lemma occurrences_catalog fs id :
  occurrences id (sample_id_of <$> filter is_image_file (rglob_figures fs))
  = length (image_files_named fs id).
Proof.
  rewrite occurrences_fmap. unfold image_files_named.
  induction (rglob_figures fs) as [|e l IH]; [done|].
  destruct (decide (is_image_file e)) as [He|He].
  - rewrite (filter_cons_True is_image_file) by done.
    destruct (decide (sample_id_of e = id)) as [E|E].
    + rewrite (filter_cons_True (λ x, sample_id_of x = id)) by done.
      rewrite (filter_cons_True (λ x, is_image_file x ∧ _)) by (by apply image_named_iff).
      simpl. by rewrite IH.
    + rewrite (filter_cons_False (λ x, sample_id_of x = id)) by done.
      rewrite (filter_cons_False (λ x, is_image_file x ∧ _)); [done|].
      rewrite image_named_iff. tauto.
  - rewrite (filter_cons_False is_image_file) by done.
    rewrite (filter_cons_False (λ x, is_image_file x ∧ _)) by tauto. done.
Qed.

(** C5. For every filesystem state on which [get_all_samples] returns, the
    catalog it returns has for members exactly the relative paths without
    extension, parts joined by forward slashes, of the regular files under the
    root whose extension is jpg, jpeg or png whatever its case; files of any
    other kind leave no entry; and the catalog is sorted in ascending
    lexicographic order. *)
Theorem build_returns_sorted_image_identifiers fs catalog :
  get_all_samples fs = Ok catalog →
  (∀ id, id ∈ catalog ↔
     ∃ e, e ∈ rglob_figures fs ∧ is_image_file e
          ∧ relative_path_without_extension e id)
  ∧ StronglySorted String.le catalog.
Proof.
  intros Hcat. apply get_all_samples_eq in Hcat as ->. split.
  - intros id. rewrite elem_of_sorted, list_elem_of_fmap. split.
    + intros (e & -> & [He Hin]%list_elem_of_filter).
      exists e. split_and!; [done..|]. by apply sample_id_of_image.
    + intros (e & Hin & He & Hid). exists e. split.
      * symmetry. by apply image_named_iff.
      * by apply list_elem_of_filter.
  - apply StronglySorted_merge_sort; apply _.
Qed.

(** The build of the example dataset: the directory and the text file
    leave no entry. *)
Lemma build_returns_sorted_image_identifiers_witness :
  get_all_samples fs_demo = Ok demo_catalog
  ∧ StronglySorted String.le demo_catalog
  ∧ ∃ e, e ∈ rglob_figures fs_demo ∧ is_image_file e
         ∧ relative_path_without_extension e "a/c".
Proof.
  assert (get_all_samples fs_demo = Ok demo_catalog) as Hcat by (vm_compute; reflexivity).
  split; [exact Hcat|].
  destruct (build_returns_sorted_image_identifiers fs_demo demo_catalog Hcat)
    as (Hmem & Hsorted).
  split; [exact Hsorted|]. apply Hmem. right. left.
Defined.

(** C1 (amended). For every filesystem state on which [get_all_samples]
    returns, the catalog holds one entry per primary-image file: an identifier
    occurs in it as many times as there are image files on disk with that
    relative path without extension.  Hence the catalog is free of duplicates
    exactly when no two image files differ only by their extension. *)
Theorem catalog_one_entry_per_image_file fs catalog :
  get_all_samples fs = Ok catalog →
  (∀ id, occurrences id catalog = length (image_files_named fs id))
  ∧ (NoDup catalog ↔ ∀ id, (length (image_files_named fs id) ≤ 1)%nat).
Proof.
  intros Hcat. apply get_all_samples_eq in Hcat as ->.
  assert (∀ id, occurrences id
            (sorted (sample_id_of <$> filter is_image_file (rglob_figures fs)))
          = length (image_files_named fs id)) as Hocc.
  { intros id. by rewrite occurrences_sorted, occurrences_catalog. }
  split; [done|]. rewrite NoDup_occurrences.
  split; intros H id; specialize (H id); by rewrite ?Hocc in *.
Qed.

(** The chart saved under two extensions is counted twice. *)
Lemma catalog_one_entry_per_image_file_witness :
  get_all_samples fs_two_extensions = Ok ["a"; "a"]
  ∧ length (image_files_named fs_two_extensions "a") = 2%nat.
Proof.
  assert (get_all_samples fs_two_extensions = Ok ["a"; "a"]) as Hcat
    by (vm_compute; reflexivity).
  split; [exact Hcat|].
  destruct (catalog_one_entry_per_image_file fs_two_extensions ["a"; "a"] Hcat)
    as (Hocc & _).
  rewrite <- Hocc. reflexivity.
Defined.

(** C1, as stated, fails: a chart saved both as [a.jpg] and as [a.png] is
    listed twice. *)
Lemma catalog_duplicates_when_extensions_collide :
  ∃ catalog,
    get_all_samples fs_two_extensions = Ok catalog
    ∧ occurrences "a" catalog = 2%nat
    ∧ ¬ NoDup catalog.
Proof.
  exists ["a"; "a"]. split; [by vm_compute|]. split; [by vm_compute|].
  intros H. apply NoDup_cons in H as [H _]. apply H. by left.
Qed.

(** ** The resolver *)

Section Resolver.
Context (BASE_DIR : string) (fs : filesystem).

Lemma first_existing_spec candidates :
  first_existing_wins fs candidates (first_existing fs candidates).
Proof.
  induction candidates as [|p rest IH]; simpl.
  - by intros q ?%elem_of_nil.
  - destruct (path_exists fs p) eqn:Ep.
    + exists 0%nat. split_and!; [done..|]. intros j q Hj. lia.
    + unfold first_existing_wins in *. destruct (first_existing fs rest) as [r|].
      * destruct IH as (i & Hi & Hr & Hbefore). exists (S i). split_and!; [done..|].
        intros [|j] q Hj Hq; simpl in Hq; [congruence|].
        apply (Hbefore j); [lia | done].
      * intros q [->|Hq]%elem_of_cons; [done | by apply IH].
Qed.

(** [get_sample_data] always returns, and its two paths are the results of
    the two lookup loops. *)
Lemma get_sample_data_returns sample_id :
  ∃ df json_data,
    get_sample_data BASE_DIR fs sample_id
    = Ok (first_existing fs
            [ os_path_join (FIGURES_DIR BASE_DIR) (sample_id +:+ ".jpeg");
              os_path_join (FIGURES_DIR BASE_DIR) (sample_id +:+ ".jpg");
              os_path_join (FIGURES_DIR BASE_DIR) (sample_id +:+ ".png") ],
          first_existing fs
            [ os_path_join (SCREENSHOTS_DIR BASE_DIR) (sample_id +:+ ".jpg");
              os_path_join (SCREENSHOTS_DIR BASE_DIR) (sample_id +:+ ".jpeg");
              os_path_join (SCREENSHOTS_DIR BASE_DIR) (sample_id +:+ ".png");
              os_path_join (os_path_join (SCREENSHOTS_DIR BASE_DIR) "code_original")
                (sample_id +:+ ".jpg");
              os_path_join (os_path_join (SCREENSHOTS_DIR BASE_DIR) "code_original")
                (sample_id +:+ ".jpeg");
              os_path_join (os_path_join (SCREENSHOTS_DIR BASE_DIR) "code_original")
                (sample_id +:+ ".png") ],
          df, json_data).
Proof.
  unfold get_sample_data.
  destruct (path_exists fs (os_path_join (DATA_DIR BASE_DIR) _));
    [destruct (read_csv fs _)|];
    (destruct (path_exists fs (os_path_join (QA_DIR BASE_DIR) _));
     [destruct (json_load fs _)|]); cbn; eauto.
Qed.

End Resolver.

(** C6. For every identifier and filesystem state, [get_sample_data] returns;
    its primary image path is the first existing one of the identifier under
    the figures root with .jpeg, .jpg, .png in that order, and its companion
    path is the first existing one of six candidates: the identifier under
    the screenshots root with .jpg, .jpeg, .png, then under its code_original
    subdirectory with .jpg, .jpeg, .png; a path is absent when no candidate
    exists. *)
Theorem resolve_tries_candidates_in_order BASE_DIR fs sample_id :
  ∃ misleading_path original_path df json_data,
    get_sample_data BASE_DIR fs sample_id
      = Ok (misleading_path, original_path, df, json_data)
    ∧ first_existing_wins fs
        [ os_path_join (FIGURES_DIR BASE_DIR) (sample_id +:+ ".jpeg");
          os_path_join (FIGURES_DIR BASE_DIR) (sample_id +:+ ".jpg");
          os_path_join (FIGURES_DIR BASE_DIR) (sample_id +:+ ".png") ]
        misleading_path
    ∧ first_existing_wins fs
        [ os_path_join (SCREENSHOTS_DIR BASE_DIR) (sample_id +:+ ".jpg");
          os_path_join (SCREENSHOTS_DIR BASE_DIR) (sample_id +:+ ".jpeg");
          os_path_join (SCREENSHOTS_DIR BASE_DIR) (sample_id +:+ ".png");
          os_path_join (os_path_join (SCREENSHOTS_DIR BASE_DIR) "code_original")
            (sample_id +:+ ".jpg");
          os_path_join (os_path_join (SCREENSHOTS_DIR BASE_DIR) "code_original")
            (sample_id +:+ ".jpeg");
          os_path_join (os_path_join (SCREENSHOTS_DIR BASE_DIR) "code_original")
            (sample_id +:+ ".png") ]
        original_path.
Proof.
  destruct (get_sample_data_returns BASE_DIR fs sample_id) as (df & jd & H).
  eexists _, _, df, jd. split; [exact H|].
  split; apply first_existing_spec.
Qed.

(** C7. For every identifier, [get_sample_data] returns whatever the state of
    the two companion files.  Without [DATA_DIR/id.csv] the table is the one
    row, one column placeholder with field Info; with a file that
    [read_csv] rejects it is the one-row placeholder whose field Error ends
    with the text of the failure; a file that parses is shown as parsed.  The
    same holds of [QA_DIR/id.json] with a one-entry mapping. *)
Theorem resolve_companion_files_never_raise BASE_DIR fs sample_id :
  ∃ misleading_path original_path df json_data,
    get_sample_data BASE_DIR fs sample_id
      = Ok (misleading_path, original_path, df, json_data)
    ∧ (path_exists fs (os_path_join (DATA_DIR BASE_DIR) (sample_id +:+ ".csv")) = false →
       df = [("Info", [CellStr "No CSV file found"])] ∧ n_rows df = 1%nat)
    ∧ (∀ e,
         path_exists fs (os_path_join (DATA_DIR BASE_DIR) (sample_id +:+ ".csv")) = true →
         read_csv fs (os_path_join (DATA_DIR BASE_DIR) (sample_id +:+ ".csv")) = Raise e →
         df = [("Error", [CellStr ("Could not read CSV: " +:+ exc_str e)])]
         ∧ n_rows df = 1%nat)
    ∧ (∀ parsed,
         path_exists fs (os_path_join (DATA_DIR BASE_DIR) (sample_id +:+ ".csv")) = true →
         read_csv fs (os_path_join (DATA_DIR BASE_DIR) (sample_id +:+ ".csv")) = Ok parsed →
         df = parsed)
    ∧ (path_exists fs (os_path_join (QA_DIR BASE_DIR) (sample_id +:+ ".json")) = false →
       json_data = JObject {[ "Info" := JString "No JSON file found" ]})
    ∧ (∀ e,
         path_exists fs (os_path_join (QA_DIR BASE_DIR) (sample_id +:+ ".json")) = true →
         json_load fs (os_path_join (QA_DIR BASE_DIR) (sample_id +:+ ".json")) = Raise e →
         json_data = JObject {[ "Error" := JString ("Could not read JSON: " +:+ exc_str e) ]})
    ∧ (∀ parsed,
         path_exists fs (os_path_join (QA_DIR BASE_DIR) (sample_id +:+ ".json")) = true →
         json_load fs (os_path_join (QA_DIR BASE_DIR) (sample_id +:+ ".json")) = Ok parsed →
         json_data = parsed).
Proof.
  unfold get_sample_data.
  destruct (path_exists fs (os_path_join (DATA_DIR BASE_DIR) _)) eqn:Ecsv;
    [destruct (read_csv fs _) eqn:Rcsv|];
    (destruct (path_exists fs (os_path_join (QA_DIR BASE_DIR) _)) eqn:Ejson;
     [destruct (json_load fs _) eqn:Rjson|]); cbn;
    eexists _, _, _, _; (split; [reflexivity|]);
    split_and!; intros; simplify_eq; done.
Qed.

(** ** Paths under the roots *)

Lemma endswith_char_app a b c :
  b ≠ EmptyString → endswith_char (a +:+ b) c = endswith_char b c.
Proof.
  intros Hb. induction a as [|x a IH]; [done|].
  rewrite str_app_cons. simpl. destruct (a +:+ b) eqn:E; [|done].
  apply (f_equal String.length) in E. rewrite str_length_app in E.
  destruct b; [done | simpl in E; lia].
Qed.

Lemma startswith_app s t c :
  startswith s (String c EmptyString) = false →
  startswith t (String c EmptyString) = false →
  startswith (s +:+ t) (String c EmptyString) = false.
Proof.
  unfold startswith. destruct s as [|x s]; [done|].
  rewrite str_app_cons. simpl.
  destruct (ascii_dec c x); [by destruct s | done].
Qed.

(** Joining a root to a relative name puts one slash between them. *)
Lemma os_path_join_relative a b :
  a ≠ EmptyString → endswith_char a "/" = false → startswith b "/" = false →
  os_path_join a b = a +:+ "/" +:+ b.
Proof.
  intros Ha Hend Hb. unfold os_path_join.
  by rewrite Hb, bool_decide_eq_false_2, Hend.
Qed.

Lemma str_app_nonempty a b : b ≠ EmptyString → a +:+ b ≠ EmptyString.
Proof.
  intros Hb E. apply (f_equal String.length) in E. rewrite str_length_app in E.
  destruct b; [done | simpl in E; lia].
Qed.

Lemma os_path_join_name a b :
  b ≠ EmptyString → startswith b "/" = false →
  os_path_join a b ≠ EmptyString ∧ endswith_char (os_path_join a b) "/" = endswith_char b "/".
Proof.
  intros Hb Hs. unfold os_path_join. rewrite Hs.
  destruct (bool_decide (a = EmptyString) || endswith_char a "/").
  - split; [by apply str_app_nonempty|]. by apply endswith_char_app.
  - split; [by apply str_app_nonempty, str_app_nonempty|].
    rewrite endswith_char_app by (by apply str_app_nonempty).
    by apply endswith_char_app.
Qed.

(** The candidates of a relative identifier lie under the roots. *)
Lemma candidates_under_roots BASE_DIR sample_id ext :
  startswith sample_id "/" = false → startswith ext "/" = false →
  os_path_join (FIGURES_DIR BASE_DIR) (sample_id +:+ ext)
    = FIGURES_DIR BASE_DIR +:+ "/" +:+ sample_id +:+ ext
  ∧ os_path_join (SCREENSHOTS_DIR BASE_DIR) (sample_id +:+ ext)
    = SCREENSHOTS_DIR BASE_DIR +:+ "/" +:+ sample_id +:+ ext
  ∧ os_path_join (os_path_join (SCREENSHOTS_DIR BASE_DIR) "code_original") (sample_id +:+ ext)
    = SCREENSHOTS_DIR BASE_DIR +:+ "/code_original/" +:+ sample_id +:+ ext
  ∧ os_path_join (DATA_DIR BASE_DIR) (sample_id +:+ ext)
    = DATA_DIR BASE_DIR +:+ "/" +:+ sample_id +:+ ext
  ∧ os_path_join (QA_DIR BASE_DIR) (sample_id +:+ ext)
    = QA_DIR BASE_DIR +:+ "/" +:+ sample_id +:+ ext.
Proof.
  intros Hs He. pose proof (startswith_app _ _ _ Hs He) as Hse.
  unfold FIGURES_DIR, SCREENSHOTS_DIR, DATA_DIR, QA_DIR.
  destruct (os_path_join_name BASE_DIR "figures") as [F1 F2]; [done..|].
  destruct (os_path_join_name BASE_DIR "data") as [D1 D2]; [done..|].
  destruct (os_path_join_name BASE_DIR "qa") as [Q1 Q2]; [done..|].
  destruct (os_path_join_name (os_path_join BASE_DIR "screenshots") "non-misleading")
    as [S1 S2]; [done..|].
  destruct (os_path_join_name
              (os_path_join (os_path_join BASE_DIR "screenshots") "non-misleading")
              "code_original") as [C1 C2]; [done..|].
  split_and!; try (by apply os_path_join_relative).
  rewrite (os_path_join_relative _ (sample_id +:+ ext)) by done.
  rewrite (os_path_join_relative _ "code_original") by done.
  by rewrite !str_app_assoc.
Qed.

(** ** The navigator *)

Lemma clamp_max_min i hi : 0 ≤ hi → Z.max 0 (Z.min i hi) = clamp i 0 hi.
Proof.
  intros Hhi. unfold clamp.
  destruct (i <? 0) eqn:E1; [apply Z.ltb_lt in E1; lia|].
  apply Z.ltb_ge in E1. destruct (hi <? i) eqn:E2.
  - apply Z.ltb_lt in E2. lia.
  - apply Z.ltb_ge in E2. lia.
Qed.

Lemma clamp_range i lo hi : lo ≤ hi → lo ≤ clamp i lo hi ≤ hi.
Proof.
  intros H. unfold clamp.
  destruct (i <? lo) eqn:E1; [lia|]. apply Z.ltb_ge in E1.
  destruct (hi <? i) eqn:E2; [lia|]. apply Z.ltb_ge in E2. lia.
Qed.

Lemma clamp_inside i lo hi : lo ≤ i ≤ hi → clamp i lo hi = i.
Proof.
  intros H. unfold clamp.
  destruct (i <? lo) eqn:E1; [apply Z.ltb_lt in E1; lia|].
  destruct (hi <? i) eqn:E2; [apply Z.ltb_lt in E2; lia|]. done.
Qed.

Lemma len_nonempty {A} (l : list A) : l ≠ [] → 0 ≤ len l - 1.
Proof. unfold len. destruct l; [done | simpl; lia]. Qed.

(** Inside the bounds [l[i]] is the element at position [i]. *)
Lemma list_getitem_in_range {A} (l : list A) i :
  0 ≤ i < len l → ∃ x, l !! Z.to_nat i = Some x ∧ list_getitem l i = Ok x.
Proof.
  intros Hi. unfold list_getitem.
  destruct (i <? 0) eqn:E; [apply Z.ltb_lt in E; lia|].
  destruct (0 <=? i) eqn:E1; [|apply Z.leb_gt in E1; lia].
  destruct (i <? len l) eqn:E2; [|apply Z.ltb_ge in E2; lia].
  simpl. destruct (lookup_lt_is_Some_2 l (Z.to_nat i)) as [x Hx]; [unfold len in Hi; lia|].
  exists x. by rewrite Hx.
Qed.

(** [l.index(val)] is the first position of [val]. *)
Lemma list_index_first val l (i : nat) :
  l !! i = Some val → (∀ j, (j < i)%nat → l !! j ≠ Some val) →
  list_index val l = Ok (Z.of_nat i).
Proof.
  revert i. induction l as [|x l IH]; intros i Hi Hfirst; [done|].
  simpl. destruct i as [|i].
  - simpl in Hi. injection Hi as ->. by rewrite bool_decide_eq_true_2.
  - rewrite bool_decide_eq_false_2.
    + rewrite (IH i); [cbn; f_equal; lia | done |].
      intros j Hj. apply (Hfirst (S j)). lia.
    + intros ->. by apply (Hfirst 0%nat); [lia|].
Qed.

Lemma list_index_absent val l : val ∉ l → ∃ e, list_index val l = Raise e.
Proof.
  induction l as [|x l IH]; intros Hin; simpl; [eauto|].
  apply not_elem_of_cons in Hin as [Hx Hl].
  rewrite bool_decide_eq_false_2 by done.
  destruct (IH Hl) as [e ->]. cbn. eauto.
Qed.

Lemma list_index_present val l : val ∈ l → ∃ i, list_index val l = Ok i.
Proof.
  induction l as [|x l IH]; intros Hin; [by apply elem_of_nil in Hin|].
  simpl. destruct (decide (x = val)) as [->|Hx].
  - rewrite bool_decide_eq_true_2 by done. eauto.
  - rewrite bool_decide_eq_false_2 by done.
    apply elem_of_cons in Hin as [->|Hin]; [done|].
    destruct (IH Hin) as [i ->]. cbn. eauto.
Qed.

Section Navigator.
Context (BASE_DIR : string) (fs : filesystem) (samples : list string).

(** Every listener is [load_sample] at its target. *)
Lemma handle_target ev current : handle BASE_DIR fs samples ev current
  = load_sample BASE_DIR fs samples (target samples ev current).
Proof.
  destruct ev as [| | |val]; try done.
  simpl. unfold on_select. destruct (decide (val ∈ samples)) as [Hin|Hin].
  - rewrite bool_decide_eq_true_2 by done.
    destruct (list_index_present _ _ Hin) as [i ->]. done.
  - rewrite bool_decide_eq_false_2 by done.
    destruct (list_index_absent _ _ Hin) as [e ->]. done.
Qed.

(** On a catalog with entries, [load_sample] shows the entry at the clamped
    position: it opens the two located images, in that order, and returns. *)
Lemma load_sample_nonempty index :
  samples ≠ [] →
  ∃ sample_id misleading_path original_path df json_data,
    samples !! Z.to_nat (clamp index 0 (len samples - 1)) = Some sample_id
    ∧ get_sample_data BASE_DIR fs sample_id
        = Ok (misleading_path, original_path, df, json_data)
    ∧ load_sample BASE_DIR fs samples index
        = (misleading_img ← open_if fs misleading_path;
           original_img ← open_if fs original_path;
           Ok (mkOutputs misleading_img original_img df json_data (Some sample_id)
                 (clamp index 0 (len samples - 1))
                 (str_int (clamp index 0 (len samples - 1) + 1) +:+ " / "
                    +:+ str_int (len samples)))).
Proof.
  intros Hne. pose proof (len_nonempty _ Hne) as Hlen.
  unfold load_sample. rewrite bool_decide_eq_false_2 by done.
  rewrite clamp_max_min by done.
  pose proof (clamp_range index 0 (len samples - 1) Hlen) as Hrange.
  destruct (list_getitem_in_range samples (clamp index 0 (len samples - 1)))
    as (sid & Hsid & ->); [lia|].
  destruct (get_sample_data_returns BASE_DIR fs sid) as (df & jd & Hdata).
  eexists sid, _, _, df, jd. split; [done|]. split; [exact Hdata|].
  cbn. by rewrite Hdata.
Qed.

Lemma first_existing_exists candidates p :
  first_existing fs candidates = Some p → path_exists fs p = true.
Proof.
  intros H. pose proof (first_existing_spec fs candidates) as Hspec.
  rewrite H in Hspec. by destruct Hspec as (_ & _ & ? & _).
Qed.

Lemma open_if_raise path e :
  open_if fs path = Raise e → ∃ p, path = Some p ∧ Image_open fs p = Raise e.
Proof.
  destruct path as [p|]; [|done]. simpl.
  destruct (bool_decide (p = EmptyString)); [done|].
  destruct (Image_open fs p) eqn:E; [done|]. cbn. intros [= ->]. eauto.
Qed.

Lemma get_sample_data_located sample_id misleading_path original_path df json_data p :
  get_sample_data BASE_DIR fs sample_id
    = Ok (misleading_path, original_path, df, json_data) →
  misleading_path = Some p ∨ original_path = Some p → path_exists fs p = true.
Proof.
  destruct (get_sample_data_returns BASE_DIR fs sample_id) as (df' & jd' & Hret).
  intros Heq Hor. rewrite Hret in Heq.
  match type of Heq with
  | Ok (?m, ?o, _, _) = _ =>
      assert (misleading_path = m ∧ original_path = o) as [-> ->]
        by (split; congruence)
  end.
  destruct Hor as [H|H]; eapply first_existing_exists; exact H.
Qed.

(** What [load_sample] does on a catalog with entries: it returns exactly
    when the images of the entry at the clamped position open, what it
    returns is that entry at that position, and what it raises is the
    exception of [Image.open] on a located image. *)
Lemma load_sample_outcome index :
  samples ≠ [] →
  (∀ out, load_sample BASE_DIR fs samples index = Ok out →
     current_index out = clamp index 0 (len samples - 1)
     ∧ (∃ sample_id, sample_dropdown out = Some sample_id
          ∧ samples !! Z.to_nat (current_index out) = Some sample_id)
     ∧ count_display out
       = str_int (current_index out + 1) +:+ " / " +:+ str_int (len samples))
  ∧ (∀ e, load_sample BASE_DIR fs samples index = Raise e →
       ∃ p, path_exists fs p = true ∧ Image_open fs p = Raise e)
  ∧ (returns (load_sample BASE_DIR fs samples index)
     ↔ decodable_at BASE_DIR fs samples (clamp index 0 (len samples - 1))).
Proof.
  intros Hne.
  destruct (load_sample_nonempty index Hne)
    as (sid & mp & op & df & jd & Hsid & Hdata & ->).
  split_and!.
  - intros out H.
    destruct (open_if fs mp) eqn:E1; [|done].
    destruct (open_if fs op) eqn:E2; [|done].
    cbn in H. injection H as <-. simpl. eauto.
  - intros e H.
    destruct (open_if fs mp) eqn:E1.
    + destruct (open_if fs op) eqn:E2; [done|].
      cbn in H. injection H as ->.
      apply open_if_raise in E2 as (p & -> & Hp). exists p. split; [|done].
      eapply get_sample_data_located; eauto.
    + cbn in H. injection H as ->.
      apply open_if_raise in E1 as (p & -> & Hp). exists p. split; [|done].
      eapply get_sample_data_located; eauto.
  - split.
    + intros [out H]. exists sid. split; [done|]. exists mp, op, df, jd.
      split; [done|]. unfold returns.
      destruct (open_if fs mp); [|done]. destruct (open_if fs op); [|done]. eauto.
    + intros (sid' & Hsid' & mp' & op' & df' & jd' & Hdata' & [mi Hmi] & [oi Hoi]).
      rewrite Hsid in Hsid'. injection Hsid' as <-.
      rewrite Hdata in Hdata'. injection Hdata' as <- <- <- <-.
      rewrite Hmi, Hoi. cbn. by eexists.
Qed.

End Navigator.

(** C2. The code departs from the claim: [z.jpeg] is found but does not
    decode, and stepping onto it raises the exception of [Image.open] where
    the claim wants a placeholder returned. *)
Theorem undecodable_image_raises :
  get_all_samples fs_corrupt = Ok demo_catalog
  ∧ path_exists fs_corrupt "/app/figures/z.jpeg" = true
  ∧ handle "/app" fs_corrupt demo_catalog Next 1
    = Raise (UnidentifiedImageError "/app/figures/z.jpeg").
Proof. split_and!; by vm_compute. Qed.

(** C4. On the empty catalog every listener (page load, previous, next,
    selection) returns, whatever the position or value it is given and
    whatever is on disk: no misleading image, no original image, the empty
    table, the empty mapping, no identifier, position 0 and the text 0/0. *)
Theorem empty_catalog_degenerate_result BASE_DIR fs ev current :
  handle BASE_DIR fs [] ev current
  = Ok (mkOutputs None None [] (JObject ∅) None 0 "0/0").
Proof.
  rewrite handle_target. unfold load_sample. by rewrite bool_decide_eq_true_2.
Qed.

(** C3. On a catalog of N > 0 entries, every listener given any integer
    position moves to the clamp of its target into [0, N-1]: whatever it
    returns carries that position, and it does return once the images of the
    entry there open; no index, however far out of range, raises — the only
    exception a listener lets through is that of [Image.open] on a located
    image.  In particular previous at 0 has target 0 after clamping and next
    at N-1 has target N-1: no wraparound. *)
Theorem navigation_clamps_position BASE_DIR fs samples ev current :
  samples ≠ [] →
  (∀ out, handle BASE_DIR fs samples ev current = Ok out →
     current_index out = clamp (target samples ev current) 0 (len samples - 1))
  ∧ (decodable_at BASE_DIR fs samples
       (clamp (target samples ev current) 0 (len samples - 1)) →
     ∃ out, handle BASE_DIR fs samples ev current = Ok out
            ∧ current_index out = clamp (target samples ev current) 0 (len samples - 1))
  ∧ (∀ e, handle BASE_DIR fs samples ev current = Raise e →
       ∃ p, path_exists fs p = true ∧ Image_open fs p = Raise e)
  ∧ clamp (target samples Previous 0) 0 (len samples - 1) = 0
  ∧ clamp (target samples Next (len samples - 1)) 0 (len samples - 1) = len samples - 1.
Proof.
  intros Hne. pose proof (len_nonempty _ Hne) as Hlen.
  rewrite handle_target.
  destruct (load_sample_outcome BASE_DIR fs samples (target samples ev current) Hne)
    as (Hok & Hraise & Hret).
  split_and!.
  - intros out H. by apply Hok.
  - intros Hdec. apply Hret in Hdec as [out H]. exists out. split; [done|]. by apply Hok.
  - done.
  - simpl. unfold clamp. simpl. done.
  - simpl. unfold clamp.
    destruct (len samples - 1 + 1 <? 0) eqn:E1; [apply Z.ltb_lt in E1; lia|].
    destruct (len samples - 1 <? len samples - 1 + 1) eqn:E2; [done|].
    apply Z.ltb_ge in E2. lia.
Qed.

(** Every image of the example dataset opens. *)
Lemma demo_decodable_at i : 0 ≤ i < 3 → decodable_at "/app" fs_demo demo_catalog i.
Proof.
  intros Hi. assert (i = 0 ∨ i = 1 ∨ i = 2) as [-> | [-> | ->]] by lia;
    (eexists; split; [reflexivity|]);
    (eexists _, _, _, _; split; [vm_compute; reflexivity|]);
    split; eexists; vm_compute; reflexivity.
Defined.

(** Next at the last position of the example catalog stays there. *)
Lemma navigation_clamps_position_witness :
  demo_catalog ≠ []
  ∧ ∃ out, handle "/app" fs_demo demo_catalog Next 2 = Ok out ∧ current_index out = 2.
Proof.
  assert (demo_catalog ≠ []) as Hne by done. split; [exact Hne|].
  destruct (navigation_clamps_position "/app" fs_demo demo_catalog Next 2 Hne)
    as (_ & H & _).
  apply H. apply demo_decodable_at. vm_compute. split; congruence.
Defined.

(** C10. On a catalog with entries, the result of every listener is
    consistent with the catalog: the identifier it carries is the catalog
    entry at the position it carries, that position lies within the catalog,
    and its counter reads the position plus one in decimal, then space, slash,
    space, then the length of the catalog in decimal.  The listener does
    return such a result once the images of the entry at its clamped target
    open. *)
Theorem navigation_result_matches_catalog BASE_DIR fs samples ev current :
  samples ≠ [] →
  (∀ out, handle BASE_DIR fs samples ev current = Ok out →
     ∃ sample_id,
       sample_dropdown out = Some sample_id
       ∧ samples !! Z.to_nat (current_index out) = Some sample_id
       ∧ 0 ≤ current_index out < len samples
       ∧ sample_id ∈ samples
       ∧ count_display out
         = str_int (current_index out + 1) +:+ " / " +:+ str_int (len samples))
  ∧ (decodable_at BASE_DIR fs samples
       (clamp (target samples ev current) 0 (len samples - 1)) →
     returns (handle BASE_DIR fs samples ev current)).
Proof.
  intros Hne. pose proof (len_nonempty _ Hne) as Hlen.
  rewrite handle_target.
  destruct (load_sample_outcome BASE_DIR fs samples (target samples ev current) Hne)
    as (Hok & _ & Hret).
  split; [|apply Hret].
  intros out H. destruct (Hok out H) as (Hidx & (sid & Hdrop & Hsid) & Hcount).
  exists sid. split_and!; try done.
  - rewrite Hidx. pose proof (clamp_range (target samples ev current) 0 _ Hlen). lia.
  - rewrite Hidx. pose proof (clamp_range (target samples ev current) 0 _ Hlen). lia.
  - by eapply list_elem_of_lookup_2.
Qed.

(** Selecting the second entry of the example catalog shows it as 2 / 3. *)
Lemma navigation_result_matches_catalog_witness :
  demo_catalog ≠ []
  ∧ ∃ out, handle "/app" fs_demo demo_catalog (Select "a/c") 0 = Ok out
           ∧ sample_dropdown out = Some "a/c"
           ∧ count_display out = "2 / 3".
Proof.
  assert (demo_catalog ≠ []) as Hne by done. split; [exact Hne|].
  destruct (navigation_result_matches_catalog "/app" fs_demo demo_catalog
              (Select "a/c") 0 Hne) as (Hok & Hret).
  destruct Hret as [out Hout].
  { apply demo_decodable_at. vm_compute. split; congruence. }
  exists out. split; [exact Hout|].
  destruct (Hok out Hout) as (sid & Hdrop & Hsid & _ & _ & Hcount).
  assert (current_index out = 1) as Hidx.
  { revert Hout. vm_compute. intros [= <-]. reflexivity. }
  rewrite Hidx in Hsid, Hcount. simpl in Hsid. injection Hsid as <-.
  split; [exact Hdrop | exact Hcount].
Defined.

(** C8. For every catalog, selecting an identifier that is not in it gives
    exactly the outcome of loading position 0; selecting an identifier that
    is in it gives exactly the outcome of loading the position where it
    first stands, and a result so returned carries that position and that
    identifier. *)
Theorem select_by_id BASE_DIR fs samples val :
  (val ∉ samples →
   on_select BASE_DIR fs samples val = load_sample BASE_DIR fs samples 0)
  ∧ (∀ i : nat,
       samples !! i = Some val → (∀ j, (j < i)%nat → samples !! j ≠ Some val) →
       on_select BASE_DIR fs samples val = load_sample BASE_DIR fs samples (Z.of_nat i)
       ∧ ∀ out, on_select BASE_DIR fs samples val = Ok out →
                current_index out = Z.of_nat i ∧ sample_dropdown out = Some val).
Proof.
  split.
  - intros Hin. unfold on_select. by rewrite bool_decide_eq_false_2.
  - intros i Hi Hfirst.
    assert (on_select BASE_DIR fs samples val
            = load_sample BASE_DIR fs samples (Z.of_nat i)) as Hsel.
    { unfold on_select. rewrite bool_decide_eq_true_2 by (by eapply list_elem_of_lookup_2).
      by rewrite (list_index_first val samples i). }
    split; [exact Hsel|]. intros out Hout. rewrite Hsel in Hout.
    assert (samples ≠ []) as Hne by (by intros ->).
    destruct (load_sample_outcome BASE_DIR fs samples (Z.of_nat i) Hne) as (Hok & _ & _).
    destruct (Hok out Hout) as (Hidx & (sid & Hdrop & Hsid) & _).
    assert (clamp (Z.of_nat i) 0 (len samples - 1) = Z.of_nat i) as Hin.
    { apply clamp_inside. apply lookup_lt_Some in Hi. unfold len. lia. }
    rewrite Hin in Hidx. split; [exact Hidx|].
    rewrite Hidx, Nat2Z.id in Hsid. congruence.
Qed.

(** C9. On a catalog of N entries and at an interior position p,
    0 <= p < N-1, next lands on p+1 once the images of that entry open, and
    previous from the position it returned gives exactly the outcome of
    loading p, which carries position p. *)
Theorem next_then_previous_round_trip BASE_DIR fs samples p :
  0 ≤ p < len samples - 1 →
  (∀ out, on_next BASE_DIR fs samples p = Ok out →
     on_prev BASE_DIR fs samples (current_index out) = load_sample BASE_DIR fs samples p)
  ∧ (decodable_at BASE_DIR fs samples (p + 1) →
     ∃ out, on_next BASE_DIR fs samples p = Ok out
            ∧ current_index out = p + 1
            ∧ on_prev BASE_DIR fs samples (current_index out)
              = load_sample BASE_DIR fs samples p)
  ∧ (∀ out, load_sample BASE_DIR fs samples p = Ok out → current_index out = p).
Proof.
  intros Hp.
  assert (samples ≠ []) as Hne by (intros ->; unfold len in Hp; simpl in Hp; lia).
  destruct (load_sample_outcome BASE_DIR fs samples (p + 1) Hne) as (Hok & _ & Hret).
  assert (clamp (p + 1) 0 (len samples - 1) = p + 1) as Hnext
    by (apply clamp_inside; lia).
  rewrite Hnext in Hok, Hret.
  assert (∀ out, on_next BASE_DIR fs samples p = Ok out →
            current_index out = p + 1
            ∧ on_prev BASE_DIR fs samples (current_index out)
              = load_sample BASE_DIR fs samples p) as Hround.
  { intros out Hout. destruct (Hok out Hout) as (Hidx & _). split; [done|].
    rewrite Hidx. unfold on_prev. f_equal. lia. }
  split_and!.
  - intros out Hout. by apply Hround.
  - intros Hdec. apply Hret in Hdec as [out Hout]. exists out.
    split; [exact Hout|]. by apply Hround.
  - intros out Hout.
    destruct (load_sample_outcome BASE_DIR fs samples p Hne) as (Hok' & _ & _).
    destruct (Hok' out Hout) as (Hidx & _). rewrite Hidx. apply clamp_inside. lia.
Qed.

(** Next then previous from the first entry of the example catalog. *)
Lemma next_then_previous_round_trip_witness :
  0 ≤ 0 < len demo_catalog - 1
  ∧ ∃ out, on_next "/app" fs_demo demo_catalog 0 = Ok out
           ∧ on_prev "/app" fs_demo demo_catalog (current_index out)
             = load_sample "/app" fs_demo demo_catalog 0.
Proof.
  assert (0 ≤ 0 < len demo_catalog - 1) as Hp by (vm_compute; split; congruence).
  split; [exact Hp|].
  destruct (next_then_previous_round_trip "/app" fs_demo demo_catalog 0 Hp)
    as (_ & H & _).
  destruct H as (out & Hout & _ & Hback).
  { apply demo_decodable_at. vm_compute. split; congruence. }
  exists out. split; [exact Hout | exact Hback].
Defined.

(** The examples of the specification. *)

Example demo_catalog_built : get_all_samples fs_demo = Ok demo_catalog.
Proof. by vm_compute. Qed.

Example demo_round_trip :
  ∃ out1 out0,
    on_next "/app" fs_demo demo_catalog 0 = Ok out1
    ∧ on_prev "/app" fs_demo demo_catalog (current_index out1) = Ok out0
    ∧ sample_dropdown out0 = Some "a/b" ∧ current_index out0 = 0.
Proof. eexists _, _. split_and!; by vm_compute. Qed.

Example demo_select_unknown :
  on_select "/app" fs_demo demo_catalog "missing"
  = load_sample "/app" fs_demo demo_catalog 0.
Proof. by vm_compute. Qed.

Example demo_uppercase_extension :
  retained (mkDirent ["charts"; "Pie.JPG"] (Ok true)) = true
  ∧ sample_id_of (mkDirent ["charts"; "Pie.JPG"] (Ok true)) = "charts/Pie".
Proof. by vm_compute. Qed.

Example demo_unparsable_table :
  ∃ misleading_path original_path json_data,
    get_sample_data "/app" fs_demo "a/c"
    = Ok (misleading_path, original_path,
          [("Error", [CellStr ("Could not read CSV: " +:+ exc_str ParserError)])],
          json_data).
Proof. eexists _, _, _. by vm_compute. Qed.

Example demo_unparsable_annotation :
  ∃ misleading_path original_path df,
    get_sample_data "/app" fs_demo "z"
    = Ok (misleading_path, original_path, df,
          JObject {[ "Error" := JString ("Could not read JSON: " +:+ exc_str JSONDecodeError) ]}).
Proof. eexists _, _, _. by vm_compute. Qed.

Example demo_companion_fallback :
  ∃ df json_data,
    get_sample_data "/app" fs_demo "a/c"
    = Ok (Some "/app/figures/a/c.jpg",
          Some "/app/screenshots/non-misleading/code_original/a/c.jpeg",
          df, json_data).
Proof. eexists _, _. by vm_compute. Qed.

(** * Further properties *)

(** ** The catalog *)

Lemma image_files_Permutation (l1 l2 : list dirent) :
  l1 ≡ₚ l2 →
  sample_id_of <$> filter is_image_file l1 ≡ₚ sample_id_of <$> filter is_image_file l2.
Proof. intros H. by rewrite H. Qed.

(** X1. The catalog does not depend on the order in which [rglob] yields
    the directory entries: when the build returns on one enumeration, it
    returns the same catalog on every permutation of it. *)
Theorem catalog_independent_of_enumeration_order fs1 fs2 catalog :
  rglob_figures fs1 ≡ₚ rglob_figures fs2 →
  get_all_samples fs1 = Ok catalog →
  get_all_samples fs2 = Ok catalog.
Proof.
  intros Hperm Hcat.
  assert (is_file_answers fs2) as Hall.
  { unfold is_file_answers. rewrite <- Hperm. unfold get_all_samples in Hcat.
    destruct (scan_figures (rglob_figures fs1) []) eqn:E; [|done].
    by eapply scan_figures_ok. }
  apply get_all_samples_eq in Hcat as ->. rewrite get_all_samples_returns by done.
  f_equal. unfold sorted. apply (Sorted_unique String.le).
  - apply Sorted_merge_sort; apply _.
  - apply Sorted_merge_sort; apply _.
  - rewrite !merge_sort_Permutation. by apply image_files_Permutation.
Qed.

Lemma catalog_independent_of_enumeration_order_witness :
  rglob_figures fs_demo_reversed ≡ₚ rglob_figures fs_demo
  ∧ get_all_samples fs_demo_reversed = Ok demo_catalog
  ∧ get_all_samples fs_demo = Ok demo_catalog.
Proof.
  assert (rglob_figures fs_demo_reversed ≡ₚ rglob_figures fs_demo) as H
    by apply reverse_Permutation.
  assert (get_all_samples fs_demo_reversed = Ok demo_catalog) as Hcat
    by (vm_compute; reflexivity).
  split; [exact H|]. split; [exact Hcat|].
  exact (catalog_independent_of_enumeration_order fs_demo_reversed fs_demo demo_catalog
           H Hcat).
Defined.

(** X2. When the build returns, the length of the catalog, which the
    counter shows as the total, is the number of image files under the figures
    root; the catalog is empty exactly when there is none. *)
Theorem catalog_length_counts_image_files fs catalog :
  get_all_samples fs = Ok catalog →
  length catalog = length (filter is_image_file (rglob_figures fs))
  ∧ (catalog = [] ↔ ∀ e, e ∈ rglob_figures fs → ¬ is_image_file e).
Proof.
  intros Hcat. apply get_all_samples_eq in Hcat as ->.
  assert (length (sorted (sample_id_of <$> filter is_image_file (rglob_figures fs)))
          = length (filter is_image_file (rglob_figures fs))) as Hlen.
  { unfold sorted. by rewrite merge_sort_Permutation, length_fmap. }
  split; [exact Hlen|]. split.
  - intros Hnil e Hin He. rewrite Hnil in Hlen. simpl in Hlen.
    assert (e ∈ filter is_image_file (rglob_figures fs)) as Hf
      by (by apply list_elem_of_filter).
    destruct (filter is_image_file (rglob_figures fs)); [by apply elem_of_nil in Hf | done].
  - intros Hnone. apply length_zero_iff_nil. rewrite Hlen.
    apply length_zero_iff_nil.
    destruct (filter is_image_file (rglob_figures fs)) as [|e l] eqn:E; [done|].
    assert (e ∈ filter is_image_file (rglob_figures fs)) as Hf by (rewrite E; by left).
    apply list_elem_of_filter in Hf as [He Hin]. by destruct (Hnone e Hin).
Qed.

(** Five entries on disk, three of them image files. *)
Lemma catalog_length_counts_image_files_witness :
  get_all_samples fs_demo = Ok demo_catalog
  ∧ length (filter is_image_file (rglob_figures fs_demo)) = 3%nat.
Proof.
  assert (get_all_samples fs_demo = Ok demo_catalog) as Hcat by (vm_compute; reflexivity).
  split; [exact Hcat|].
  destruct (catalog_length_counts_image_files fs_demo demo_catalog Hcat) as (Hlen & _).
  rewrite <- Hlen. reflexivity.
Defined.


(** A subdirectory that cannot be searched makes the build raise. *)
Example locked_directory_fails_the_build :
  get_all_samples fs_locked = Raise (PermissionError "/app/figures/locked/x.png").
Proof. by vm_compute. Qed.

(** ** Identifiers and the paths probed *)

Lemma suffix_shorter p :
  suffix p ≠ EmptyString → (String.length (suffix p) < String.length (name p))%nat.
Proof.
  unfold suffix. set (nm := name p). set (i := rfind "." nm).
  destruct ((0 <? i) && (i <? Z.of_nat (String.length nm) - 1)) eqn:E; [|done].
  intros _. apply andb_prop in E as [E1 E2]. apply Z.ltb_lt in E1, E2.
  rewrite str_length_drop. lia.
Qed.

Lemma concat_at_least_name (p : PurePath) :
  (String.length (name p) ≤ String.length (String.concat "/" p))%nat.
Proof.
  induction p as [|x p IH]; [done|].
  destruct p as [|y p].
  - simpl. done.
  - change (String.concat "/" (x :: y :: p))
      with (x +:+ "/" +:+ String.concat "/" (y :: p)).
    rewrite !str_length_app.
    assert (name (x :: y :: p) = name (y :: p)) as -> by done. lia.
Qed.

Lemma valid_name_first s :
  valid_name s = true → ∃ c s', s = String c s' ∧ c ≠ "/"%char.
Proof.
  unfold valid_name. intros [Hne Hslash]%andb_prop.
  destruct s as [|c s']; [done|]. exists c, s'. split; [done|].
  simpl in Hslash. apply negb_true_iff, orb_false_elim in Hslash as [Hc _].
  by apply Ascii.eqb_neq in Hc.
Qed.

Lemma startswith_cons c d s :
  c ≠ d → startswith (String c s) (String d EmptyString) = false.
Proof.
  intros Hcd. unfold startswith. simpl. destruct (ascii_dec d c); [congruence | done].
Qed.

(** The identifier of an image file made of file names does not start
    with a slash. *)
Lemma sample_id_relative e :
  is_image_file e → forallb valid_name (d_rel e) = true →
  startswith (sample_id_of e) "/" = false.
Proof.
  intros He Hvalid.
  pose proof (sample_id_of_image e He) as Hid. unfold relative_path_without_extension in Hid.
  pose proof (image_suffix_nonempty e He) as Hs.
  pose proof (suffix_shorter _ Hs) as Hshort.
  pose proof (concat_at_least_name (d_rel e)) as Hlong.
  apply (f_equal String.length) in Hid as Hlen. rewrite str_length_app in Hlen.
  assert (0 < String.length (sample_id_of e))%nat as Hpos by lia.
  clear Hshort Hlong Hlen.
  destruct (d_rel e) as [|p1 rest] eqn:Ep; [by destruct (suffix_nonempty_name _ Hs)|].
  simpl in Hvalid. apply andb_prop in Hvalid as [Hp1 _].
  destruct (valid_name_first p1 Hp1) as (c & s' & -> & Hc).
  destruct (sample_id_of e) as [|d idr] eqn:Eid; [simpl in Hpos; lia|].
  assert (d = c) as ->.
  { rewrite str_app_cons in Hid. destruct rest; simpl in Hid.
    - by injection Hid.
    - rewrite str_app_cons in Hid. by injection Hid. }
  by apply startswith_cons.
Qed.

(** X3. When the entries yielded by [rglob] are made of file names, every
    identifier of the catalog is relative, so each path probed for it is the
    root, a slash, the identifier and the extension: nothing outside the four
    roots is looked at. *)
Theorem catalog_entries_resolve_under_roots BASE_DIR fs catalog sample_id :
  well_formed_entries fs = true →
  get_all_samples fs = Ok catalog →
  sample_id ∈ catalog →
  startswith sample_id "/" = false
  ∧ primary_candidates BASE_DIR sample_id
    = (λ ext, FIGURES_DIR BASE_DIR +:+ "/" +:+ sample_id +:+ ext)
        <$> [".jpeg"; ".jpg"; ".png"]
  ∧ companion_candidates BASE_DIR sample_id
    = ((λ ext, SCREENSHOTS_DIR BASE_DIR +:+ "/" +:+ sample_id +:+ ext)
         <$> [".jpg"; ".jpeg"; ".png"])
      ++ ((λ ext, SCREENSHOTS_DIR BASE_DIR +:+ "/code_original/" +:+ sample_id +:+ ext)
            <$> [".jpg"; ".jpeg"; ".png"])
  ∧ os_path_join (DATA_DIR BASE_DIR) (sample_id +:+ ".csv")
    = DATA_DIR BASE_DIR +:+ "/" +:+ sample_id +:+ ".csv"
  ∧ os_path_join (QA_DIR BASE_DIR) (sample_id +:+ ".json")
    = QA_DIR BASE_DIR +:+ "/" +:+ sample_id +:+ ".json".
Proof.
  intros Hwf Hcat Hin.
  apply get_all_samples_eq in Hcat as ->.
  apply elem_of_sorted, list_elem_of_fmap in Hin as (e & -> & [He Hin]%list_elem_of_filter).
  assert (startswith (sample_id_of e) "/" = false) as Hrel.
  { apply sample_id_relative; [done|].
    unfold well_formed_entries in Hwf. rewrite forallb_forall in Hwf.
    apply Hwf. by apply list_elem_of_In. }
  split; [exact Hrel|].
  unfold primary_candidates, companion_candidates. simpl.
  destruct (candidates_under_roots BASE_DIR (sample_id_of e) ".jpeg" Hrel eq_refl)
    as (F1 & S1 & C1 & _ & _).
  destruct (candidates_under_roots BASE_DIR (sample_id_of e) ".jpg" Hrel eq_refl)
    as (F2 & S2 & C2 & _ & _).
  destruct (candidates_under_roots BASE_DIR (sample_id_of e) ".png" Hrel eq_refl)
    as (F3 & S3 & C3 & _ & _).
  destruct (candidates_under_roots BASE_DIR (sample_id_of e) ".csv" Hrel eq_refl)
    as (_ & _ & _ & D4 & _).
  destruct (candidates_under_roots BASE_DIR (sample_id_of e) ".json" Hrel eq_refl)
    as (_ & _ & _ & _ & Q5).
  rewrite F1, F2, F3, S1, S2, S3, C1, C2, C3. done.
Qed.

Lemma catalog_entries_resolve_under_roots_witness :
  well_formed_entries fs_demo = true
  ∧ get_all_samples fs_demo = Ok demo_catalog
  ∧ "a/c" ∈ demo_catalog
  ∧ primary_candidates "/app" "a/c"
    = (λ ext, FIGURES_DIR "/app" +:+ "/" +:+ "a/c" +:+ ext) <$> [".jpeg"; ".jpg"; ".png"].
Proof.
  assert (well_formed_entries fs_demo = true) as Hwf by reflexivity.
  assert (get_all_samples fs_demo = Ok demo_catalog) as Hcat by (vm_compute; reflexivity).
  assert ("a/c" ∈ demo_catalog) as Hin by (right; left).
  split; [exact Hwf|]. split; [exact Hcat|]. split; [exact Hin|].
  destruct (catalog_entries_resolve_under_roots "/app" fs_demo demo_catalog "a/c" Hwf Hcat Hin)
    as (_ & H & _).
  exact H.
Defined.



(** ** What a listener shows *)

Lemma get_sample_data_candidates BASE_DIR fs sample_id :
  ∃ df json_data,
    get_sample_data BASE_DIR fs sample_id
    = Ok (first_existing fs (primary_candidates BASE_DIR sample_id),
          first_existing fs (companion_candidates BASE_DIR sample_id),
          df, json_data).
Proof. exact (get_sample_data_returns BASE_DIR fs sample_id). Qed.

Lemma first_existing_elem_of fs candidates p :
  first_existing fs candidates = Some p → p ∈ candidates ∧ path_exists fs p = true.
Proof.
  intros H. pose proof (first_existing_spec fs candidates) as Hspec.
  rewrite H in Hspec. destruct Hspec as (i & Hi & Hp & _).
  split; [by eapply list_elem_of_lookup_2 | done].
Qed.

Lemma first_existing_None fs candidates :
  first_existing fs candidates = None ↔ ∀ p, p ∈ candidates → path_exists fs p = false.
Proof.
  split.
  - intros H. pose proof (first_existing_spec fs candidates) as Hspec. by rewrite H in Hspec.
  - intros Hnone. destruct (first_existing fs candidates) as [p|] eqn:E; [|done].
    apply first_existing_elem_of in E as [Hin Hp]. rewrite (Hnone p Hin) in Hp. done.
Qed.

Lemma os_path_join_nonempty a b : b ≠ EmptyString → os_path_join a b ≠ EmptyString.
Proof.
  intros Hb. unfold os_path_join. destruct (startswith b "/"); [done|].
  destruct (bool_decide (a = EmptyString) || endswith_char a "/").
  - by apply str_app_nonempty.
  - by apply str_app_nonempty, str_app_nonempty.
Qed.

Lemma candidates_nonempty BASE_DIR sample_id p :
  p ∈ primary_candidates BASE_DIR sample_id ++ companion_candidates BASE_DIR sample_id →
  p ≠ EmptyString.
Proof.
  unfold primary_candidates, companion_candidates. simpl. intros Hin.
  repeat (apply elem_of_cons in Hin as [-> | Hin];
          [by apply os_path_join_nonempty, str_app_nonempty|]).
  by apply elem_of_nil in Hin.
Qed.

(** A located image is opened: [open_if] of a located path is [Image.open]. *)
Lemma open_if_located BASE_DIR fs sample_id p :
  p ∈ primary_candidates BASE_DIR sample_id ++ companion_candidates BASE_DIR sample_id →
  open_if fs (Some p) = (img ← Image_open fs p; Ok (Some img)).
Proof.
  intros Hin. simpl. by rewrite bool_decide_eq_false_2 by (by eapply candidates_nonempty).
Qed.

Section Shown.
Context (BASE_DIR : string) (fs : filesystem) (samples : list string).

(** What a returned tuple is made of. *)
Lemma handle_ok_inv ev current out :
  samples ≠ [] →
  handle BASE_DIR fs samples ev current = Ok out →
  ∃ sample_id df json_data,
    current_index out = clamp (target samples ev current) 0 (len samples - 1)
    ∧ samples !! Z.to_nat (current_index out) = Some sample_id
    ∧ get_sample_data BASE_DIR fs sample_id
      = Ok (first_existing fs (primary_candidates BASE_DIR sample_id),
            first_existing fs (companion_candidates BASE_DIR sample_id),
            df, json_data)
    ∧ open_if fs (first_existing fs (primary_candidates BASE_DIR sample_id))
      = Ok (misleading_image out)
    ∧ open_if fs (first_existing fs (companion_candidates BASE_DIR sample_id))
      = Ok (original_image out)
    ∧ out = mkOutputs (misleading_image out) (original_image out) df json_data
              (Some sample_id) (current_index out) (count_display out).
Proof.
  intros Hne. rewrite handle_target.
  destruct (load_sample_nonempty BASE_DIR fs samples (target samples ev current) Hne)
    as (sid & mp & op & df & jd & Hsid & Hdata & ->).
  destruct (get_sample_data_candidates BASE_DIR fs sid) as (df' & jd' & Hcand).
  assert (mp = first_existing fs (primary_candidates BASE_DIR sid)
          ∧ op = first_existing fs (companion_candidates BASE_DIR sid)
          ∧ df = df' ∧ jd = jd') as (-> & -> & -> & ->)
    by (rewrite Hcand in Hdata; split_and!; congruence).
  destruct (open_if fs (first_existing fs (primary_candidates BASE_DIR sid))) eqn:E1; [|done].
  destruct (open_if fs (first_existing fs (companion_candidates BASE_DIR sid))) eqn:E2; [|done].
  cbn. intros [= <-]. simpl. exists sid, df', jd'. by split_and!.
Qed.

Lemma load_sample_clamp index :
  samples ≠ [] →
  load_sample BASE_DIR fs samples (clamp index 0 (len samples - 1))
  = load_sample BASE_DIR fs samples index.
Proof.
  intros Hne. pose proof (len_nonempty _ Hne) as Hlen.
  rewrite <- (clamp_max_min index) by done.
  unfold load_sample. rewrite bool_decide_eq_false_2 by done.
  replace (Z.max 0 (Z.min (Z.max 0 (Z.min index (len samples - 1))) (len samples - 1)))
    with (Z.max 0 (Z.min index (len samples - 1))) by lia.
  done.
Qed.

End Shown.

(** X5. Indices beyond either end saturate: for every catalog, loading any
    position at or below 0 has exactly the outcome of loading 0, and loading
    any position at or above N-1 has exactly the outcome of loading N-1; so
    previous at the first entry and next at the last one reload that entry. *)
Theorem load_sample_saturates BASE_DIR fs samples index :
  (index ≤ 0 →
   load_sample BASE_DIR fs samples index = load_sample BASE_DIR fs samples 0)
  ∧ (len samples - 1 ≤ index →
     load_sample BASE_DIR fs samples index
     = load_sample BASE_DIR fs samples (len samples - 1))
  ∧ on_prev BASE_DIR fs samples 0 = load_sample BASE_DIR fs samples 0
  ∧ on_next BASE_DIR fs samples (len samples - 1)
    = load_sample BASE_DIR fs samples (len samples - 1).
Proof.
  assert (∀ i j, Z.max 0 (Z.min i (len samples - 1)) = Z.max 0 (Z.min j (len samples - 1)) →
            load_sample BASE_DIR fs samples i = load_sample BASE_DIR fs samples j) as Heq.
  { intros i j H. unfold load_sample. by rewrite H. }
  assert (0 ≤ len samples) as Hlen by (unfold len; lia).
  split_and!.
  - intros Hi. apply Heq. lia.
  - intros Hi. apply Heq. lia.
  - unfold on_prev. apply Heq. lia.
  - unfold on_next. apply Heq. lia.
Qed.

(** X6. On a catalog with entries a listener returns exactly when the two
    images located for the entry at its clamped target open. *)
Theorem listener_returns_iff_images_open BASE_DIR fs samples ev current :
  samples ≠ [] →
  returns (handle BASE_DIR fs samples ev current)
  ↔ decodable_at BASE_DIR fs samples
      (clamp (target samples ev current) 0 (len samples - 1)).
Proof.
  intros Hne. rewrite handle_target.
  by destruct (load_sample_outcome BASE_DIR fs samples (target samples ev current) Hne)
    as (_ & _ & H).
Qed.

Lemma listener_returns_iff_images_open_witness :
  demo_catalog ≠ [] ∧ ¬ decodable_at "/app" fs_corrupt demo_catalog 2.
Proof.
  assert (demo_catalog ≠ []) as Hne by done. split; [exact Hne|].
  intros Hdec.
  apply (listener_returns_iff_images_open "/app" fs_corrupt demo_catalog Next 1 Hne) in Hdec.
  destruct Hdec as [out Hout]. vm_compute in Hout. discriminate Hout.
Defined.

(** X7. The exception a listener raises is that of the first image that
    fails to open, the misleading one before the original one: when the
    primary image located for the target entry does not open, the listener
    raises its exception whatever the companion; when the primary is absent or
    opens and the located companion does not open, it raises the
    companion's. *)
Theorem first_failing_image_is_raised BASE_DIR fs samples ev current sample_id :
  samples ≠ [] →
  samples !! Z.to_nat (clamp (target samples ev current) 0 (len samples - 1))
    = Some sample_id →
  (∀ p e,
     first_existing fs (primary_candidates BASE_DIR sample_id) = Some p →
     Image_open fs p = Raise e →
     handle BASE_DIR fs samples ev current = Raise e)
  ∧ (∀ q e,
       returns (open_if fs (first_existing fs (primary_candidates BASE_DIR sample_id))) →
       first_existing fs (companion_candidates BASE_DIR sample_id) = Some q →
       Image_open fs q = Raise e →
       handle BASE_DIR fs samples ev current = Raise e).
Proof.
  intros Hne Hsid. rewrite handle_target.
  destruct (load_sample_nonempty BASE_DIR fs samples (target samples ev current) Hne)
    as (sid & mp & op & df & jd & Hsid' & Hdata & ->).
  rewrite Hsid in Hsid'. injection Hsid' as <-.
  destruct (get_sample_data_candidates BASE_DIR fs sample_id) as (df' & jd' & Hcand).
  assert (mp = first_existing fs (primary_candidates BASE_DIR sample_id)
          ∧ op = first_existing fs (companion_candidates BASE_DIR sample_id))
    as (-> & ->) by (rewrite Hcand in Hdata; split; congruence).
  split.
  - intros p e Hp Hopen. rewrite Hp.
    rewrite (open_if_located BASE_DIR fs sample_id).
    + by rewrite Hopen.
    + apply elem_of_app. left. by apply first_existing_elem_of in Hp as [? _].
  - intros q e [mi Hmi] Hq Hopen. rewrite Hmi, Hq.
    rewrite (open_if_located BASE_DIR fs sample_id).
    + by rewrite Hopen.
    + apply elem_of_app. right. by apply first_existing_elem_of in Hq as [? _].
Qed.

Lemma first_failing_image_is_raised_witness :
  demo_catalog ≠ []
  ∧ handle "/app" fs_corrupt demo_catalog (Select "z") 0
    = Raise (UnidentifiedImageError "/app/figures/z.jpeg").
Proof.
  assert (demo_catalog ≠ []) as Hne by done. split; [exact Hne|].
  assert (demo_catalog
            !! Z.to_nat (clamp (target demo_catalog (Select "z") 0) 0 (len demo_catalog - 1))
          = Some "z") as Hsid by reflexivity.
  destruct (first_failing_image_is_raised "/app" fs_corrupt demo_catalog (Select "z") 0 "z"
              Hne Hsid) as (H & _).
  apply (H "/app/figures/z.jpeg"); vm_compute; reflexivity.
Defined.

(** X8. In a tuple a listener returns, an image slot is empty exactly when
    none of the candidate paths of the identifier shown exists: a located
    image is never dropped, a missing image never raises. *)
Theorem image_slot_empty_iff_not_located BASE_DIR fs samples ev current out sample_id :
  samples ≠ [] →
  handle BASE_DIR fs samples ev current = Ok out →
  sample_dropdown out = Some sample_id →
  (misleading_image out = None
   ↔ ∀ p, p ∈ primary_candidates BASE_DIR sample_id → path_exists fs p = false)
  ∧ (original_image out = None
     ↔ ∀ p, p ∈ companion_candidates BASE_DIR sample_id → path_exists fs p = false).
Proof.
  intros Hne Hout Hdrop.
  destruct (handle_ok_inv BASE_DIR fs samples ev current out Hne Hout)
    as (sid & df & jd & _ & _ & _ & Hmi & Hoi & Heq).
  rewrite Heq in Hdrop. simpl in Hdrop. injection Hdrop as ->.
  assert (∀ candidates slot,
            (∀ p, p ∈ candidates →
                  p ∈ primary_candidates BASE_DIR sample_id
                      ++ companion_candidates BASE_DIR sample_id) →
            open_if fs (first_existing fs candidates) = Ok slot →
            slot = None ↔ ∀ p, p ∈ candidates → path_exists fs p = false) as Hslot.
  { intros candidates slot Hsub Hopen. rewrite <- first_existing_None.
    destruct (first_existing fs candidates) as [p|] eqn:E.
    - rewrite (open_if_located BASE_DIR fs sample_id) in Hopen
        by (apply Hsub; by apply first_existing_elem_of in E as [? _]).
      destruct (Image_open fs p); [|done]. cbn in Hopen. injection Hopen as <-. done.
    - simpl in Hopen. injection Hopen as <-. done. }
  split; (eapply Hslot; [|done]); intros p Hp; apply elem_of_app; auto.
Qed.

Lemma image_slot_empty_iff_not_located_witness :
  demo_catalog ≠ []
  ∧ ∃ out, handle "/app" fs_demo demo_catalog Next 1 = Ok out
           ∧ sample_dropdown out = Some "z"
           ∧ ∀ p, p ∈ companion_candidates "/app" "z" → path_exists fs_demo p = false.
Proof.
  assert (demo_catalog ≠ []) as Hne by done. split; [exact Hne|].
  eexists. split; [vm_compute; reflexivity|]. split; [reflexivity|].
  eapply (image_slot_empty_iff_not_located "/app" fs_demo demo_catalog Next 1);
    [exact Hne | vm_compute; reflexivity | reflexivity | reflexivity].
Defined.

(** X9. A tuple a listener returns is the resolver's record of the
    identifier it shows: the table and the mapping shown are those
    [get_sample_data] gives for that identifier, and the identifier is the
    catalog entry at the position returned. *)
Theorem shown_record_is_resolved_record BASE_DIR fs samples ev current out :
  samples ≠ [] →
  handle BASE_DIR fs samples ev current = Ok out →
  ∃ sample_id misleading_path original_path,
    sample_dropdown out = Some sample_id
    ∧ samples !! Z.to_nat (current_index out) = Some sample_id
    ∧ get_sample_data BASE_DIR fs sample_id
      = Ok (misleading_path, original_path, data_table out, json_output out)
    ∧ open_if fs misleading_path = Ok (misleading_image out)
    ∧ open_if fs original_path = Ok (original_image out).
Proof.
  intros Hne Hout.
  destruct (handle_ok_inv BASE_DIR fs samples ev current out Hne Hout)
    as (sid & df & jd & _ & Hsid & Hdata & Hmi & Hoi & Heq).
  assert (sample_dropdown out = Some sid) as Hdrop by (by rewrite Heq).
  assert (data_table out = df) as -> by (by rewrite Heq).
  assert (json_output out = jd) as -> by (by rewrite Heq).
  eexists sid, _, _. split_and!; [exact Hdrop | exact Hsid | exact Hdata | exact Hmi | exact Hoi].
Qed.

Lemma shown_record_is_resolved_record_witness :
  demo_catalog ≠ []
  ∧ ∃ out sample_id misleading_path original_path,
      handle "/app" fs_demo demo_catalog Load 0 = Ok out
      ∧ sample_dropdown out = Some sample_id
      ∧ get_sample_data "/app" fs_demo sample_id
        = Ok (misleading_path, original_path, data_table out, json_output out).
Proof.
  assert (demo_catalog ≠ []) as Hne by done. split; [exact Hne|].
  assert (∃ out, handle "/app" fs_demo demo_catalog Load 0 = Ok out) as [out H]
    by (eexists; vm_compute; reflexivity).
  destruct (shown_record_is_resolved_record "/app" fs_demo demo_catalog Load 0 out Hne H)
    as (sid & mp & op & Hdrop & _ & Hdata & _ & _).
  exists out, sid, mp, op. split; [exact H|]. split; [exact Hdrop | exact Hdata].
Defined.

(** ** Sessions *)

Section Sessions.
Context (BASE_DIR : string) (fs : filesystem) (samples : list string).

(** A step that returns lands within the catalog. *)
Lemma step_in_bounds current ev current' :
  step BASE_DIR fs samples current ev = Ok current' →
  0 ≤ current' ≤ Z.max 0 (len samples - 1).
Proof.
  unfold step. destruct (handle BASE_DIR fs samples ev current) as [out|] eqn:E; [|done].
  cbn. intros [= <-]. destruct (decide (samples = [])) as [->|Hne].
  - rewrite handle_target in E. unfold load_sample in E.
    rewrite bool_decide_eq_true_2 in E by done. injection E as <-. simpl. lia.
  - destruct (handle_ok_inv BASE_DIR fs samples ev current out Hne E)
      as (_ & _ & _ & -> & _).
    pose proof (clamp_range (target samples ev current) 0 _ (len_nonempty _ Hne)). lia.
Qed.

(** With images that open, a step lands on the clamped target. *)
Lemma step_decodable current ev :
  samples ≠ [] →
  (∀ i, 0 ≤ i < len samples → decodable_at BASE_DIR fs samples i) →
  step BASE_DIR fs samples current ev
  = Ok (clamp (target samples ev current) 0 (len samples - 1)).
Proof.
  intros Hne Hdec. unfold step. rewrite handle_target.
  destruct (load_sample_outcome BASE_DIR fs samples (target samples ev current) Hne)
    as (Hok & _ & Hret).
  destruct Hret as [_ [out Hout]].
  { apply Hdec. pose proof (clamp_range (target samples ev current) 0 _ (len_nonempty _ Hne)).
    lia. }
  rewrite Hout. cbn. f_equal. by apply Hok.
Qed.

Lemma run_cons_decodable ev rest current :
  samples ≠ [] →
  (∀ i, 0 ≤ i < len samples → decodable_at BASE_DIR fs samples i) →
  run BASE_DIR fs samples (ev :: rest) current
  = run BASE_DIR fs samples rest (clamp (target samples ev current) 0 (len samples - 1)).
Proof. intros Hne Hdec. cbn [run]. by rewrite step_decodable. Qed.

Lemma run_in_bounds evs start current :
  run BASE_DIR fs samples evs start = Ok current →
  0 ≤ start ≤ Z.max 0 (len samples - 1) →
  0 ≤ current ≤ Z.max 0 (len samples - 1).
Proof.
  revert start. induction evs as [|ev rest IH]; intros start Hrun Hstart.
  - simpl in Hrun. by injection Hrun as <-.
  - simpl in Hrun.
    destruct (step BASE_DIR fs samples start ev) as [c|] eqn:E; [|done].
    cbn in Hrun. apply (IH c Hrun). by eapply step_in_bounds.
Qed.

End Sessions.

(** X10. Starting from the initial state 0, after any sequence of events
    whose listeners all return, the position stored in the session lies
    within the catalog: it is 0 for the empty catalog and between 0 and N-1
    otherwise. *)
Theorem session_position_stays_in_bounds BASE_DIR fs samples evs current :
  run BASE_DIR fs samples evs 0 = Ok current →
  0 ≤ current
  ∧ (samples = [] → current = 0)
  ∧ (samples ≠ [] → current < len samples).
Proof.
  intros Hrun.
  assert (0 ≤ current ≤ Z.max 0 (len samples - 1)) as Hb.
  { apply (run_in_bounds BASE_DIR fs samples evs 0 current Hrun). lia. }
  split_and!; [lia | |].
  - intros ->. unfold len in Hb. simpl in Hb. lia.
  - intros Hne. pose proof (len_nonempty _ Hne). lia.
Qed.

Lemma session_position_stays_in_bounds_witness :
  run "/app" fs_demo demo_catalog [Next; Next; Next; Select "a/c"; Previous; Previous] 0
    = Ok 0
  ∧ 0 < len demo_catalog.
Proof.
  assert (run "/app" fs_demo demo_catalog
            [Next; Next; Next; Select "a/c"; Previous; Previous] 0 = Ok 0) as H
    by (vm_compute; reflexivity).
  split; [exact H|].
  destruct (session_position_stays_in_bounds "/app" fs_demo demo_catalog _ 0 H)
    as (_ & _ & Hlt).
  apply Hlt. discriminate.
Defined.

(** X11. In a dataset whose located images all open, pressing next n times
    from a position p of the catalog leads to min(p+n, N-1), and pressing
    previous n times leads to max(p-n, 0). *)
Theorem repeated_steps_saturate BASE_DIR fs samples (n : nat) p :
  (∀ i, 0 ≤ i < len samples → decodable_at BASE_DIR fs samples i) →
  0 ≤ p < len samples →
  run BASE_DIR fs samples (replicate n Next) p
    = Ok (Z.min (p + Z.of_nat n) (len samples - 1))
  ∧ run BASE_DIR fs samples (replicate n Previous) p
    = Ok (Z.max (p - Z.of_nat n) 0).
Proof.
  intros Hdec Hp.
  assert (samples ≠ []) as Hne by (intros ->; unfold len in Hp; simpl in Hp; lia).
  split.
  - revert p Hp. induction n as [|n IH]; intros p Hp.
    + simpl. f_equal. lia.
    + cbn [replicate]. rewrite run_cons_decodable by done.
      assert (clamp (target samples Next p) 0 (len samples - 1)
              = Z.min (p + 1) (len samples - 1)) as ->.
      { simpl. rewrite <- clamp_max_min by lia. lia. }
      rewrite IH by lia. f_equal. lia.
  - revert p Hp. induction n as [|n IH]; intros p Hp.
    + simpl. f_equal. lia.
    + cbn [replicate]. rewrite run_cons_decodable by done.
      assert (clamp (target samples Previous p) 0 (len samples - 1)
              = Z.max (p - 1) 0) as ->.
      { simpl. rewrite <- clamp_max_min by lia. lia. }
      rewrite IH by lia. f_equal. lia.
Qed.

Lemma repeated_steps_saturate_witness :
  (∀ i, 0 ≤ i < len demo_catalog → decodable_at "/app" fs_demo demo_catalog i)
  ∧ 0 ≤ 1 < len demo_catalog
  ∧ run "/app" fs_demo demo_catalog (replicate 5 Next) 1 = Ok 2.
Proof.
  assert (0 ≤ 1 < len demo_catalog) as Hp by (vm_compute; split; congruence).
  split; [exact demo_decodable_at|]. split; [exact Hp|].
  destruct (repeated_steps_saturate "/app" fs_demo demo_catalog 5 1 demo_decodable_at Hp)
    as (H & _).
  exact H.
Defined.

(** X12. In a dataset of at least two entries whose located images all
    open, next then previous from a position p leads to min(p, N-2) and
    previous then next leads to max(p, 1): each pair is the identity in the
    interior and moves one entry inwards from the end it bumps into. *)
Theorem two_step_round_trips BASE_DIR fs samples p :
  (∀ i, 0 ≤ i < len samples → decodable_at BASE_DIR fs samples i) →
  2 ≤ len samples →
  0 ≤ p < len samples →
  run BASE_DIR fs samples [Next; Previous] p = Ok (Z.min p (len samples - 2))
  ∧ run BASE_DIR fs samples [Previous; Next] p = Ok (Z.max p 1).
Proof.
  intros Hdec HN Hp.
  assert (samples ≠ []) as Hne by (intros ->; unfold len in Hp; simpl in Hp; lia).
  assert (∀ i, clamp i 0 (len samples - 1) = Z.max 0 (Z.min i (len samples - 1))) as Hc
    by (intros i; rewrite clamp_max_min; [done | lia]).
  split; rewrite !run_cons_decodable by done; cbn [run target]; f_equal;
    rewrite !Hc; lia.
Qed.

Lemma two_step_round_trips_witness :
  (∀ i, 0 ≤ i < len demo_catalog → decodable_at "/app" fs_demo demo_catalog i)
  ∧ 2 ≤ len demo_catalog
  ∧ 0 ≤ 2 < len demo_catalog
  ∧ run "/app" fs_demo demo_catalog [Next; Previous] 2 = Ok 1.
Proof.
  assert (2 ≤ len demo_catalog) as HN by (vm_compute; congruence).
  assert (0 ≤ 2 < len demo_catalog) as Hp by (vm_compute; split; congruence).
  split; [exact demo_decodable_at|]. split; [exact HN|]. split; [exact Hp|].
  destruct (two_step_round_trips "/app" fs_demo demo_catalog 2 demo_decodable_at HN Hp)
    as (H & _).
  exact H.
Defined.

(** X13. The initial value of the dropdown never raises: it is the first
    entry of the catalog, nothing for the empty catalog, and it is the
    identifier the initial load puts in the dropdown whenever that load
    returns. *)
Theorem initial_dropdown_matches_initial_load BASE_DIR fs samples :
  initial_dropdown_value samples = Ok (head samples)
  ∧ ∀ out, handle BASE_DIR fs samples Load 0 = Ok out →
           sample_dropdown out = head samples.
Proof.
  split.
  - unfold initial_dropdown_value. destruct samples as [|x l]; [done|].
    rewrite bool_decide_eq_false_2 by done.
    destruct (list_getitem_in_range (x :: l) 0) as (y & Hy & ->);
      [unfold len; simpl; lia|].
    simpl in Hy. injection Hy as <-. done.
  - intros out Hout. destruct (decide (samples = [])) as [->|Hne].
    + simpl in Hout. unfold load_sample in Hout.
      rewrite bool_decide_eq_true_2 in Hout by done. by injection Hout as <-.
    + destruct (handle_ok_inv BASE_DIR fs samples Load 0 out Hne Hout)
        as (sid & df & jd & Hidx & Hsid & _ & _ & _ & Heq).
      rewrite Hidx in Hsid. simpl in Hsid.
      rewrite clamp_inside in Hsid by (pose proof (len_nonempty _ Hne); lia).
      rewrite Heq. simpl. rewrite <- Hsid. by destruct samples.
Qed.

(** ** The catalog under navigation *)

Lemma sorted_lookup_le (l : list string) (i j : nat) a b :
  StronglySorted String.le l → (i ≤ j)%nat →
  l !! i = Some a → l !! j = Some b → String.le a b.
Proof.
  intros Hsorted. revert i j. induction Hsorted as [|x l Hl IH Hx]; intros i j Hij Hi Hj.
  - done.
  - destruct i as [|i], j as [|j]; simpl in Hi, Hj.
    + injection Hi as <-. injection Hj as <-. reflexivity.
    + injection Hi as <-. rewrite Forall_forall in Hx. apply Hx.
      by eapply list_elem_of_lookup_2.
    + lia.
    + apply (IH i j); [lia | done..].
Qed.

Lemma catalog_sorted fs samples :
  get_all_samples fs = Ok samples → StronglySorted String.le samples.
Proof.
  intros Hcat. apply get_all_samples_eq in Hcat as ->.
  apply StronglySorted_merge_sort; apply _.
Qed.

Lemma catalog_elem_of fs samples sample_id :
  get_all_samples fs = Ok samples → sample_id ∈ samples →
  ∃ e, e ∈ rglob_figures fs ∧ is_image_file e
       ∧ relative_path_without_extension e sample_id.
Proof.
  intros Hcat Hin. apply get_all_samples_eq in Hcat as ->.
  apply elem_of_sorted, list_elem_of_fmap in Hin as (e & -> & [He Hin]%list_elem_of_filter).
  exists e. split_and!; [done..|]. by apply sample_id_of_image.
Qed.

Lemma clamp_mono i j hi : 0 ≤ hi → i ≤ j → clamp i 0 hi ≤ clamp j 0 hi.
Proof. intros Hhi Hij. rewrite <- !clamp_max_min by done. lia. Qed.

(** X14. With the catalog built at startup, the viewer goes through the
    samples in ascending order of identifier: of two positions p <= q whose
    loads return, the identifier shown for p is at most the one shown for q;
    in particular next never shows a smaller identifier than the current
    one. *)
Theorem navigation_follows_sorted_order BASE_DIR fs samples p q out_p out_q a b :
  get_all_samples fs = Ok samples →
  p ≤ q →
  load_sample BASE_DIR fs samples p = Ok out_p →
  load_sample BASE_DIR fs samples q = Ok out_q →
  sample_dropdown out_p = Some a →
  sample_dropdown out_q = Some b →
  String.le a b.
Proof.
  intros Hcat Hpq Hp Hq Ha Hb.
  assert (samples ≠ []) as Hne.
  { intros ->. unfold load_sample in Hp. rewrite bool_decide_eq_true_2 in Hp by done.
    injection Hp as <-. done. }
  pose proof (len_nonempty _ Hne) as Hlen.
  destruct (load_sample_outcome BASE_DIR fs samples p Hne) as (Hokp & _ & _).
  destruct (load_sample_outcome BASE_DIR fs samples q Hne) as (Hokq & _ & _).
  destruct (Hokp out_p Hp) as (Hip & (a' & Ha' & Hla) & _).
  destruct (Hokq out_q Hq) as (Hiq & (b' & Hb' & Hlb) & _).
  rewrite Ha in Ha'. injection Ha' as <-. rewrite Hb in Hb'. injection Hb' as <-.
  eapply (sorted_lookup_le samples); [by eapply catalog_sorted | | exact Hla | exact Hlb].
  rewrite Hip, Hiq.
  pose proof (clamp_mono p q (len samples - 1) Hlen Hpq).
  pose proof (clamp_range p 0 (len samples - 1) Hlen). lia.
Qed.

Lemma navigation_follows_sorted_order_witness : String.le "a/c" "z".
Proof.
  eapply (navigation_follows_sorted_order "/app" fs_demo demo_catalog 1 2);
    [vm_compute; reflexivity | lia | vm_compute; reflexivity | vm_compute; reflexivity
    | reflexivity | reflexivity].
Defined.

(** X15. With the catalog built at startup, every identifier a listener
    shows is the relative path without extension of a regular image file found
    under the figures root. *)
Theorem shown_identifier_is_an_image_file BASE_DIR fs samples ev current out sample_id :
  get_all_samples fs = Ok samples →
  handle BASE_DIR fs samples ev current = Ok out →
  sample_dropdown out = Some sample_id →
  ∃ e, e ∈ rglob_figures fs ∧ is_image_file e
       ∧ relative_path_without_extension e sample_id.
Proof.
  intros Hcat Hout Hdrop.
  assert (samples ≠ []) as Hne.
  { intros ->. rewrite handle_target in Hout. unfold load_sample in Hout.
    rewrite bool_decide_eq_true_2 in Hout by done. injection Hout as <-. done. }
  destruct (handle_ok_inv BASE_DIR fs samples ev current out Hne Hout)
    as (sid & df & jd & _ & Hsid & _ & _ & _ & Heq).
  rewrite Heq in Hdrop. simpl in Hdrop. injection Hdrop as ->.
  eapply catalog_elem_of; [done|]. by eapply list_elem_of_lookup_2.
Qed.

Lemma shown_identifier_is_an_image_file_witness :
  ∃ e, e ∈ rglob_figures fs_demo ∧ is_image_file e
       ∧ relative_path_without_extension e "a/b".
Proof.
  eapply (shown_identifier_is_an_image_file "/app" fs_demo demo_catalog Previous 0);
    [vm_compute; reflexivity | vm_compute; reflexivity | reflexivity].
Defined.

(** X16. In a catalog without duplicates, selecting in the dropdown the
    identifier a listener has just shown gives back the very tuple that
    listener returned. *)
Theorem selecting_shown_identifier_reloads BASE_DIR fs samples ev current out sample_id :
  NoDup samples →
  handle BASE_DIR fs samples ev current = Ok out →
  sample_dropdown out = Some sample_id →
  on_select BASE_DIR fs samples sample_id = Ok out.
Proof.
  intros Hnodup Hout Hdrop.
  assert (samples ≠ []) as Hne.
  { intros ->. rewrite handle_target in Hout. unfold load_sample in Hout.
    rewrite bool_decide_eq_true_2 in Hout by done. injection Hout as <-. done. }
  pose proof (len_nonempty _ Hne) as Hlen.
  destruct (handle_ok_inv BASE_DIR fs samples ev current out Hne Hout)
    as (sid & df & jd & Hidx & Hsid & _ & _ & _ & Heq).
  assert (sid = sample_id) as -> by (rewrite Heq in Hdrop; simpl in Hdrop; congruence).
  pose proof (clamp_range (target samples ev current) 0 _ Hlen) as Hrange.
  unfold on_select. rewrite bool_decide_eq_true_2 by (by eapply list_elem_of_lookup_2).
  rewrite (list_index_first sample_id samples (Z.to_nat (current_index out))).
  - cbn. rewrite Z2Nat.id by lia. rewrite Hidx.
    rewrite load_sample_clamp by done. by rewrite <- handle_target.
  - done.
  - intros j Hj Hlook. pose proof (NoDup_lookup _ _ _ _ Hnodup Hlook Hsid). lia.
Qed.

Lemma selecting_shown_identifier_reloads_witness :
  NoDup demo_catalog
  ∧ on_select "/app" fs_demo demo_catalog "z"
    = handle "/app" fs_demo demo_catalog Next 1.
Proof.
  assert (NoDup demo_catalog) as Hnodup
    by (apply (bool_decide_unpack _); vm_compute; exact I).
  split; [exact Hnodup|].
  assert (∃ out, handle "/app" fs_demo demo_catalog Next 1 = Ok out
                 ∧ sample_dropdown out = Some "z") as (out & Hout & Hdrop)
    by (eexists; split; [vm_compute; reflexivity | reflexivity]).
  rewrite Hout.
  exact (selecting_shown_identifier_reloads "/app" fs_demo demo_catalog Next 1 out "z"
           Hnodup Hout Hdrop).
Defined.
